(** * Metamorpics: the conversion page (src/app/page.tsx)

    A shallow embedding of the single React component [Home]: its state
    hooks, the three handlers [handleDownload], [handleConvert] and [onDrop],
    the module-level handles to the lazily imported libraries, and the
    browser services the handlers call.  The services are black boxes: every
    call is recorded in a trace and leaves a pending continuation, which the
    environment later settles with an outcome of its choosing. *)

From Stdlib Require Import String Ascii List ZArith QArith Bool Lia.
Import ListNotations.
Local Open Scope string_scope.
Local Open Scope Z_scope.

(** ** JavaScript primitives used by the page *)

Module JS.

(** [s.split(sep)] for a one-character separator: never empty, and
    [''.split(sep)] is [['']]. *)
Fixpoint split (sep : ascii) (s : string) : list string :=
  match s with
  | EmptyString => [EmptyString]
  | String c rest =>
      if Ascii.eqb c sep then EmptyString :: split sep rest
      else match split sep rest with
           | [] => [String c EmptyString]
           | piece :: pieces => String c piece :: pieces
           end
  end.

(** [xs[i]]: [undefined] past the end. *)
Definition index (xs : list string) (i : nat) : option string :=
  nth_error xs i.

(** A value inside a template literal: [undefined] prints as that word. *)
Definition template (v : option string) : string :=
  match v with
  | Some s => s
  | None => "undefined"
  end.

(** Truthiness of a string: only the empty string is falsy. *)
Definition truthy (s : string) : bool :=
  match s with
  | EmptyString => false
  | String _ _ => true
  end.

(** Number of occurrences of a character. *)
Fixpoint count (c : ascii) (s : string) : nat :=
  match s with
  | EmptyString => O
  | String d rest => (if Ascii.eqb d c then 1 else 0)%nat + count c rest
  end.

End JS.

(** ** Data *)

(** A [Blob]: its MIME type and its bytes. *)
Record Blob := mkBlob {
  blob_type : string;
  blob_bytes : list Byte.byte
}.

(** A [File] is a [Blob] with a name. *)
Record File := mkFile {
  file_name : string;
  file_blob : Blob
}.

(** Object URLs ([blob:...]) are opaque and unique; a number stands for one. *)
Definition Url := nat.

(** A lazily imported library handle: [null] until its import resolves. *)
Inductive Handle := Null | Loaded.

Definition loaded (h : Handle) : bool :=
  match h with
  | Null => false
  | Loaded => true
  end.

Record ImageCompressionOptions := mkCompressionOptions {
  maxSizeMB : Z;
  maxWidthOrHeight : Z;
  useWebWorker : bool
}.

Record HeicToOptions := mkHeicToOptions {
  opt_blob : File;
  opt_type : string;
  opt_quality : Q
}.

Record FormatOption := mkFormat {
  value : string;
  label : string
}.

Definition FormatCategories := list (string * list FormatOption).

Definition STANDARD_FORMATS : FormatCategories :=
  [ ("Yaygın Formatlar",
      [ mkFormat "image/jpeg" "JPEG/JPG - En yaygın fotoğraf formatı";
        mkFormat "image/png" "PNG - Kayıpsız sıkıştırma";
        mkFormat "image/gif" "GIF - Animasyon desteği" ]);
    ("Modern Web Formatları",
      [ mkFormat "image/webp" "WebP - Modern web için optimize";
        mkFormat "image/avif" "AVIF - AV1 tabanlı yeni nesil format" ]);
    ("Temel Formatlar",
      [ mkFormat "image/bmp" "BMP - Windows Bitmap";
        mkFormat "image/tiff" "TIFF - Yüksek kaliteli baskı" ]) ].

Definition HEIC_FORMATS : FormatCategories :=
  [ ("HEIC Dönüşüm Formatları",
      [ mkFormat "image/jpeg" "JPEG/JPG - En yaygın fotoğraf formatı";
        mkFormat "image/png" "PNG - Kayıpsız sıkıştırma" ]) ].

(** The values a catalog offers, in menu order. *)
Definition values (formats : FormatCategories) : list string :=
  flat_map (fun category => map value (snd category)) formats.

(** The canvas the generic path draws on: its size and the image drawn at
    the origin, named by the URL it was loaded from. *)
Record Canvas := mkCanvas {
  canvas_width : Z;
  canvas_height : Z;
  canvas_image : option Url
}.

(** [document.createElement('canvas')]: 300 by 150 and blank. *)
Definition createElement_canvas : Canvas := mkCanvas 300 150 None.

(** Assigning [canvas.width] or [canvas.height] resizes and clears. *)
Definition set_canvas_width (canvas : Canvas) (v : Z) : Canvas :=
  mkCanvas v (canvas_height canvas) None.

Definition set_canvas_height (canvas : Canvas) (v : Z) : Canvas :=
  mkCanvas (canvas_width canvas) v None.

(** [ctx.drawImage(img, 0, 0)]: the image at its own size, at the origin.
    [getContext('2d')] on a canvas that has no context yet does not return
    [null], so the call behind [ctx?.] is always made. *)
Definition drawImage (canvas : Canvas) (img : Url) : Canvas :=
  mkCanvas (canvas_width canvas) (canvas_height canvas) (Some img).

(** ** Component state: the [useState] hooks of [Home]

    [quality] holds [Number(e.target.value)] of a range input whose step is
    the default 1, a whole number. *)

Record State := mkState {
  quality : Z;
  targetFormat : string;
  isConverting : bool;
  previewUrl : option Url;
  convertedBlob : option Blob;
  originalFileName : string;
  selectedFile : option File;
  isClient : bool;
  isHeicFile : bool
}.

Definition initialState : State :=
  mkState 80 "image/jpeg" false None None "" None false false.

(** ** Calls that leave the component, in the order they are made *)

Inductive Effect :=
| console_error (message detail : string)
| saveAs (blob : Blob) (fileName : string)
| call_isHeic (file : File)
| call_heicTo (options : HeicToOptions)
| call_imageCompression (file : File) (options : ImageCompressionOptions)
| set_img_src (src : Url)
| call_toBlob (canvas : Canvas) (type : string) (q : Q).

(** ** Suspended handlers

    What a handler has captured when it stops at an [await] or registers a
    callback.  [targetFormat] and [quality] are the values of the render in
    which the handler was created, not those of a later render. *)

Inductive Task :=
| AwaitIsHeic (file : File) (capturedFormat : string)
| AwaitHeicTo (options : HeicToOptions)
| AwaitImageCompression (file : File) (capturedFormat : string)
    (capturedQuality : Z)
| AwaitImageLoad (canvas : Canvas) (src : Url) (capturedFormat : string)
    (capturedQuality : Z)
| AwaitToBlob (canvas : Canvas) (type : string) (q : Q).

(** How the environment settles a suspended handler. *)
Inductive Outcome :=
| ResolvedBool (b : bool)
| ResolvedBlob (blob : Blob)
| ResolvedFile (file : File)
| Rejected (error : string)
| ImageLoaded (width height : Z)
| ImageFailed
| Encoded (blob : option Blob).

(** ** The page with its surroundings *)

Record World := mkWorld {
  ui : State;
  imageCompression : Handle;
  heicTo : Handle;
  isHeic : Handle;
  objectUrls : list (Url * Blob);
  pending : list Task;
  trace : list Effect
}.

Definition initialWorld : World :=
  mkWorld initialState Null Null Null [] [] [].

(** ** Handlers as state-passing computations *)

Definition M (A : Type) : Type := World -> A * World.

Definition ret {A : Type} (a : A) : M A := fun w => (a, w).

Definition bind {A B : Type} (c : M A) (k : A -> M B) : M B :=
  fun w => k (fst (c w)) (snd (c w)).

Notation "x <- c ;; k" := (bind c (fun x => k))
  (at level 61, c at next level, right associativity).
Notation "c ;; k" := (bind c (fun _ => k))
  (at level 61, right associativity).

Definition exec {A : Type} (c : M A) (w : World) : World := snd (c w).

(** The state of the render in which a handler was created. *)
Definition render : M State := fun w => (ui w, w).

(** The current value of a module-level variable. *)
Definition read {A : Type} (var : World -> A) : M A := fun w => (var w, w).

Definition update (f : State -> State) : M unit :=
  fun w => (tt, mkWorld (f (ui w)) (imageCompression w) (heicTo w) (isHeic w)
                  (objectUrls w) (pending w) (trace w)).

Definition setQuality (v : Z) : M unit :=
  update (fun s => mkState v (targetFormat s) (isConverting s) (previewUrl s)
    (convertedBlob s) (originalFileName s) (selectedFile s) (isClient s)
    (isHeicFile s)).

Definition setTargetFormat (v : string) : M unit :=
  update (fun s => mkState (quality s) v (isConverting s) (previewUrl s)
    (convertedBlob s) (originalFileName s) (selectedFile s) (isClient s)
    (isHeicFile s)).

Definition setIsConverting (v : bool) : M unit :=
  update (fun s => mkState (quality s) (targetFormat s) v (previewUrl s)
    (convertedBlob s) (originalFileName s) (selectedFile s) (isClient s)
    (isHeicFile s)).

Definition setPreviewUrl (v : option Url) : M unit :=
  update (fun s => mkState (quality s) (targetFormat s) (isConverting s) v
    (convertedBlob s) (originalFileName s) (selectedFile s) (isClient s)
    (isHeicFile s)).

Definition setConvertedBlob (v : option Blob) : M unit :=
  update (fun s => mkState (quality s) (targetFormat s) (isConverting s)
    (previewUrl s) v (originalFileName s) (selectedFile s) (isClient s)
    (isHeicFile s)).

Definition setOriginalFileName (v : string) : M unit :=
  update (fun s => mkState (quality s) (targetFormat s) (isConverting s)
    (previewUrl s) (convertedBlob s) v (selectedFile s) (isClient s)
    (isHeicFile s)).

Definition setSelectedFile (v : option File) : M unit :=
  update (fun s => mkState (quality s) (targetFormat s) (isConverting s)
    (previewUrl s) (convertedBlob s) (originalFileName s) v (isClient s)
    (isHeicFile s)).

Definition setIsClient (v : bool) : M unit :=
  update (fun s => mkState (quality s) (targetFormat s) (isConverting s)
    (previewUrl s) (convertedBlob s) (originalFileName s) (selectedFile s) v
    (isHeicFile s)).

Definition setIsHeicFile (v : bool) : M unit :=
  update (fun s => mkState (quality s) (targetFormat s) (isConverting s)
    (previewUrl s) (convertedBlob s) (originalFileName s) (selectedFile s)
    (isClient s) v).

(** Record a call that leaves the component. *)
Definition emit (e : Effect) : M unit :=
  fun w => (tt, mkWorld (ui w) (imageCompression w) (heicTo w) (isHeic w)
                  (objectUrls w) (pending w) (trace w ++ [e])).

(** Stop at an [await] or leave a callback behind. *)
Definition suspend (t : Task) : M unit :=
  fun w => (tt, mkWorld (ui w) (imageCompression w) (heicTo w) (isHeic w)
                  (objectUrls w) (pending w ++ [t]) (trace w)).

(** [URL.createObjectURL(blob)]: a URL not handed out before, live from now
    on.  The page never calls [URL.revokeObjectURL], so the registry only
    grows and its length is a URL no entry holds. *)
Definition createObjectURL (blob : Blob) : M Url :=
  fun w => (length (objectUrls w),
            mkWorld (ui w) (imageCompression w) (heicTo w) (isHeic w)
              (objectUrls w ++ [(length (objectUrls w), blob)])
              (pending w) (trace w)).

(** [quality / 100]. *)
Definition fraction (q : Z) : Q := (inject_Z q / 100)%Q.

(** [handleDownload] reads the same in both variants of the page.

    [const extension = targetFormat.split('/')[1]]. *)
Definition extension (s : State) : option string :=
  JS.index (JS.split "/" (targetFormat s)) 1.

(** [const fileName = originalFileName ? ... : ...]. *)
Definition fileName (s : State) : string :=
  if JS.truthy (originalFileName s)
  then JS.template (JS.index (JS.split "." (originalFileName s)) 0)
         ++ "." ++ JS.template (extension s)
  else "converted-image." ++ JS.template (extension s).

Definition handleDownload : M unit :=
  s <- render ;;
  match convertedBlob s with
  | Some blob => emit (saveAs blob (fileName s))
  | None => ret tt
  end.

(** [handleConvert] up to its first [await]; with neither branch taken only
    the [finally] block is left to run. *)
Definition handleConvert : M unit :=
  s <- render ;;
  match selectedFile s with
  | None => ret tt
  | Some file =>
      setIsConverting true ;;
      setPreviewUrl None ;;
      setConvertedBlob None ;;
      heicTo_ <- read heicTo ;;
      imageCompression_ <- read imageCompression ;;
      if isHeicFile s && loaded heicTo_ then
        let options :=
          mkHeicToOptions file (targetFormat s) (fraction (quality s)) in
        emit (call_heicTo options) ;;
        suspend (AwaitHeicTo options)
      else if loaded imageCompression_ then
        let options := mkCompressionOptions 1 1920 true in
        emit (call_imageCompression file options) ;;
        suspend (AwaitImageCompression file (targetFormat s) (quality s))
      else
        setIsConverting false
  end.

(** [onDrop] up to [await isHeic(file)]. *)
Definition onDrop (acceptedFiles : list File) : M unit :=
  s <- render ;;
  match acceptedFiles with
  | [] => ret tt
  | file :: _ =>
      isHeic_ <- read isHeic ;;
      if negb (loaded isHeic_) then
        emit (console_error "Dosya kontrolü sırasında hata:"
                "HEIC kontrol fonksiyonu yüklenemedi")
      else
        emit (call_isHeic file) ;;
        suspend (AwaitIsHeic file (targetFormat s))
  end.

(** The rest of a handler once its [await] or callback is settled:
    the remainder of the [try] block, or [catch], and then [finally].
    [img] has no [onerror], so a failed load runs nothing. *)
Definition resume (t : Task) (o : Outcome) : option (M unit) :=
  match t, o with
  | AwaitIsHeic file capturedFormat, ResolvedBool fileIsHeic =>
      Some (setIsHeicFile fileIsHeic ;;
            setTargetFormat (if fileIsHeic then "image/jpeg"
                             else capturedFormat) ;;
            setOriginalFileName (file_name file) ;;
            setSelectedFile (Some file) ;;
            url <- createObjectURL (file_blob file) ;;
            setPreviewUrl (Some url) ;;
            setConvertedBlob None)
  | AwaitIsHeic _ _, Rejected error =>
      Some (emit (console_error "Dosya kontrolü sırasında hata:" error))
  | AwaitHeicTo _, ResolvedBlob blob =>
      Some (setConvertedBlob (Some blob) ;;
            url <- createObjectURL blob ;;
            setPreviewUrl (Some url) ;;
            setIsConverting false)
  | AwaitHeicTo _, Rejected error =>
      Some (emit (console_error "Dönüştürme hatası:" error) ;;
            setIsConverting false)
  | AwaitImageCompression _ capturedFormat capturedQuality,
    ResolvedFile compressedFile =>
      Some (url <- createObjectURL (file_blob compressedFile) ;;
            emit (set_img_src url) ;;
            suspend (AwaitImageLoad createElement_canvas url capturedFormat
                       capturedQuality) ;;
            setIsConverting false)
  | AwaitImageCompression _ _ _, Rejected error =>
      Some (emit (console_error "Dönüştürme hatası:" error) ;;
            setIsConverting false)
  | AwaitImageLoad canvas src capturedFormat capturedQuality,
    ImageLoaded width height =>
      let canvas := set_canvas_width canvas width in
      let canvas := set_canvas_height canvas height in
      let canvas := drawImage canvas src in
      Some (emit (call_toBlob canvas capturedFormat
                    (fraction capturedQuality)) ;;
            suspend (AwaitToBlob canvas capturedFormat
                       (fraction capturedQuality)))
  | AwaitImageLoad _ _ _ _, ImageFailed => Some (ret tt)
  | AwaitToBlob _ _ _, Encoded (Some blob) =>
      Some (setConvertedBlob (Some blob) ;;
            url <- createObjectURL blob ;;
            setPreviewUrl (Some url) ;;
            setIsConverting false)
  | AwaitToBlob _ _ _, Encoded None => Some (setIsConverting false)
  | _, _ => None
  end.

(** ** The page as the browser drives it *)

Inductive Event :=
| Mounted
| Imported_imageCompression
| Imported_heicTo
| Drop (acceptedFiles : list File)
| ChangeFormat (v : string)
| ChangeQuality (v : Z)
| ClickConvert
| ClickDownload
| Settle (i : nat) (o : Outcome).

Definition assign_imageCompression : M unit :=
  fun w => (tt, mkWorld (ui w) Loaded (heicTo w) (isHeic w)
                  (objectUrls w) (pending w) (trace w)).

Definition assign_heicTo : M unit :=
  fun w => (tt, mkWorld (ui w) (imageCompression w) Loaded Loaded
                  (objectUrls w) (pending w) (trace w)).

Definition take (i : nat) : M (option Task) :=
  fun w => (nth_error (pending w) i,
            mkWorld (ui w) (imageCompression w) (heicTo w) (isHeic w)
              (objectUrls w) (firstn i (pending w) ++ skipn (S i) (pending w))
              (trace w)).

Definition isSome {A : Type} (v : option A) : bool :=
  match v with
  | Some _ => true
  | None => false
  end.

(** The convert button: [disabled={!selectedFile || isConverting}]. *)
Definition convertDisabled (s : State) : bool :=
  match selectedFile s with
  | None => true
  | Some _ => isConverting s
  end.

(** [const formats = isHeicFile ? HEIC_FORMATS : STANDARD_FORMATS]: the
    menu the page shows. *)
Definition formats (s : State) : FormatCategories :=
  if isHeicFile s then HEIC_FORMATS else STANDARD_FORMATS.

(** One turn of the event loop.  The page is interactive only once
    [isClient] is set; the download button exists only with a result.  An
    outcome that does not fit the task it names settles nothing. *)
Definition step (w : World) (e : Event) : World :=
  match e with
  | Mounted => exec (setIsClient true) w
  | Imported_imageCompression => exec assign_imageCompression w
  | Imported_heicTo => exec assign_heicTo w
  | Drop acceptedFiles =>
      if isClient (ui w) then exec (onDrop acceptedFiles) w else w
  | ChangeFormat v =>
      if isClient (ui w) then exec (setTargetFormat v) w else w
  | ChangeQuality v =>
      if isClient (ui w) then exec (setQuality v) w else w
  | ClickConvert =>
      if isClient (ui w) && negb (convertDisabled (ui w))
      then exec handleConvert w else w
  | ClickDownload =>
      if isClient (ui w) && isSome (convertedBlob (ui w))
      then exec handleDownload w else w
  | Settle i o =>
      match nth_error (pending w) i with
      | Some t =>
          match resume t o with
          | Some rest => exec (take i ;; rest) w
          | None => w
          end
      | None => w
      end
  end.

Definition run (w : World) (events : list Event) : World :=
  fold_left step events w.

(** ** The naming rule in the specification's words *)

(** The text of a name before its last [sep]; the whole name when it has
    none. *)
Fixpoint beforeLast (sep : ascii) (s : string) : string :=
  match s with
  | EmptyString => EmptyString
  | String c rest =>
      if Ascii.eqb c sep && Nat.eqb (JS.count sep rest) 0 then EmptyString
      else String c (beforeLast sep rest)
  end.

(** The subtype of a MIME type: the text after its [/]. *)
Fixpoint subtype (mime : string) : option string :=
  match mime with
  | EmptyString => None
  | String c rest => if Ascii.eqb c "/" then Some rest else subtype rest
  end.

(** ** Sample data and worlds *)

Definition jpeg : Blob := mkBlob "image/jpeg" [Byte.xff; Byte.xd8; Byte.xff].
Definition png : Blob := mkBlob "image/png" [Byte.x89; Byte.x50; Byte.x4e].
Definition heic : Blob := mkBlob "image/heic" [Byte.x00; Byte.x00; Byte.x00].

Definition photo_heic : File := mkFile "photo.heic" heic.
Definition photo_png : File := mkFile "photo.png" png.
Definition holiday_png : File := mkFile "holiday.2024.png" png.
Definition compressed_png : File := mkFile "photo.png" png.

(** The page mounted and both imports resolved. *)
Definition ready : World :=
  run initialWorld [Mounted; Imported_imageCompression; Imported_heicTo].

(** The page mounted before any import has resolved except [heic-to]. *)
Definition compressionMissing : World :=
  run initialWorld [Mounted; Imported_heicTo].

(** [photo.heic] dropped, classified as HEIC and converted to JPEG. *)
Definition heicConverted : World :=
  run ready [Drop [photo_heic]; Settle 0 (ResolvedBool true);
             ChangeFormat "image/jpeg"; ChangeQuality 80;
             ClickConvert; Settle 0 (ResolvedBlob jpeg)].

(** [photo.png] dropped and classified as not HEIC. *)
Definition pngSelected : World :=
  run ready [Drop [photo_png]; Settle 0 (ResolvedBool false)].

(** The generic path after re-compression: the handler has returned and
    the image load is outstanding. *)
Definition pngDecoding : World :=
  run pngSelected [ClickConvert; Settle 0 (ResolvedFile compressed_png)].

(** The generic path with the canvas drawn and [toBlob] outstanding. *)
Definition pngEncoding : World :=
  run pngDecoding [Settle 0 (ImageLoaded 640 480)].

(** The [console.error] calls of a trace. *)
Definition errors (tr : list Effect) : list Effect :=
  filter (fun e => match e with console_error _ _ => true | _ => false end) tr.

(** The calls of a trace to the re-compression library. *)
Definition compressions (tr : list Effect) : list Effect :=
  filter (fun e => match e with call_imageCompression _ _ => true
                           | _ => false end) tr.

(** ** Definitions used to state the properties *)

(** [holiday.2024.png] converted on the generic path with the default
    target format. *)
Definition holidayConverted : World :=
  run ready [Drop [holiday_png]; Settle 0 (ResolvedBool false);
             ClickConvert; Settle 0 (ResolvedFile holiday_png);
             Settle 0 (ImageLoaded 640 480); Settle 0 (Encoded (Some jpeg))].


(** An event the format menu can raise in a world: its value is one of
    the options shown. *)
Definition fromMenu (w : World) (e : Event) : Prop :=
  match e with
  | ChangeFormat v => In v (values (formats (ui w)))
  | _ => True
  end.

(** A run in which every format change comes from the menu as shown at
    that moment. *)
Fixpoint menuRun (w : World) (events : list Event) : Prop :=
  match events with
  | [] => True
  | e :: events => fromMenu w e /\ menuRun (step w e) events
  end.

(** The format a suspended [onDrop] has captured. *)
Definition capturedFormats (tasks : list Task) : list string :=
  flat_map (fun t => match t with
                     | AwaitIsHeic _ format => [format]
                     | _ => []
                     end) tasks.

(** The selected format is on the menu shown, and every format a suspended
    [onDrop] would restore is on the full menu. *)
Definition onMenu (w : World) : Prop :=
  In (targetFormat (ui w)) (values (formats (ui w))) /\
  Forall (fun format => In format (values STANDARD_FORMATS))
         (capturedFormats (pending w)).


(** What [onDrop] does with its first file once [isHeic] has answered. *)
Definition accepted (file : File) (fileIsHeic : bool) (w : World) : World :=
  mkWorld
    (mkState (quality (ui w))
       (if fileIsHeic then "image/jpeg" else targetFormat (ui w))
       (isConverting (ui w))
       (Some (length (objectUrls w)))
       None
       (file_name file)
       (Some file)
       (isClient (ui w))
       fileIsHeic)
    (imageCompression w) (heicTo w) (isHeic w)
    (objectUrls w ++ [(length (objectUrls w), file_blob file)])
    (pending w)
    (trace w ++ [call_isHeic file]).

(** The generic path asked for TIFF, up to the pending [toBlob]. *)
Definition tiffEncoding : World :=
  run pngSelected [ChangeFormat "image/tiff"; ClickConvert;
                   Settle 0 (ResolvedFile compressed_png);
                   Settle 0 (ImageLoaded 640 480)].

(** A computation that only ever adds to the registry of live URLs. *)
Definition extends_urls {A : Type} (c : M A) : Prop :=
  forall w, exists more,
    objectUrls (snd (c w)) = (objectUrls w ++ more)%list.

(** The same file selected [n] times over. *)
Fixpoint reselect (n : nat) (file : File) : list Event :=
  match n with
  | O => []
  | S n => Drop [file] :: Settle 0 (ResolvedBool false) :: reselect n file
  end.

(** What a conversion on the HEIC path leaves behind once [heicTo] has
    resolved. *)
Definition heicResult (file : File) (blob : Blob) (w : World) : World :=
  mkWorld
    (mkState (quality (ui w)) (targetFormat (ui w)) false
       (Some (length (objectUrls w))) (Some blob)
       (originalFileName (ui w)) (Some file) (isClient (ui w)) true)
    (imageCompression w) (heicTo w) (isHeic w)
    (objectUrls w ++ [(length (objectUrls w), blob)])
    (pending w)
    (trace w ++ [call_heicTo (mkHeicToOptions file (targetFormat (ui w))
                                (fraction (quality (ui w))))]).

(** The selected HEIC file converted [n] times over. *)
Fixpoint reconvert (n : nat) (blob : Blob) : list Event :=
  match n with
  | O => []
  | S n => ClickConvert :: Settle 0 (ResolvedBlob blob) :: reconvert n blob
  end.

(** [photo.heic] dropped and classified as HEIC. *)
Definition heicSelected : World :=
  run ready [Drop [photo_heic]; Settle 0 (ResolvedBool true)].

(** The first conversion of [photo.png] left alone. *)
Definition convertedAlone : World :=
  run pngDecoding [Settle 0 (ImageLoaded 640 480);
                   Settle 0 (Encoded (Some jpeg))].

(** The same with the format changed and the button clicked again while
    the first conversion's image is still loading. *)
Definition clickedAgain : World :=
  run pngDecoding [ChangeFormat "image/png"; ClickConvert].

(** Both conversions run to their end, the second one first. *)
Definition raced : World :=
  run clickedAgain
    [Settle 1 (ResolvedFile compressed_png);
     Settle 1 (ImageLoaded 640 480);
     Settle 1 (Encoded (Some png));
     Settle 0 (ImageLoaded 640 480);
     Settle 0 (Encoded (Some jpeg))].

(** ** Definitions used to state further properties *)

(** A world some sequence of events leads to from the initial one. *)
Definition reachable (w : World) : Prop :=
  exists events, w = run initialWorld events.

(** The live URLs are numbered in the order they were handed out. *)
Definition keyed (w : World) : Prop :=
  map fst (objectUrls w) = seq 0 (length (objectUrls w)).

(** What the preview image shows: the result when there is one, otherwise
    the selected file; a result is never without its preview. *)
Definition previewShows (w : World) : Prop :=
  match convertedBlob (ui w), previewUrl (ui w) with
  | Some blob, Some url => In (url, blob) (objectUrls w)
  | Some _, None => False
  | None, Some url =>
      exists file, selectedFile (ui w) = Some file /\
                   In (url, file_blob file) (objectUrls w)
  | None, None => True
  end.

(** A suspended [handleConvert] waiting for one of the two libraries. *)
Definition isLibraryCall (t : Task) : bool :=
  match t with
  | AwaitHeicTo _ | AwaitImageCompression _ _ _ => true
  | _ => false
  end.

(** A suspended [onDrop] waiting for [isHeic]. *)
Definition isClassification (t : Task) : bool :=
  match t with
  | AwaitIsHeic _ _ => true
  | _ => false
  end.

(** [heicTo] and [isHeic] are assigned together, and a file is classified,
    or being classified, only once they are. *)
Definition heicLoadedWhenUsed (w : World) : Prop :=
  isHeic w = heicTo w /\
  (isHeicFile (ui w) = true \/ existsb isClassification (pending w) = true ->
   heicTo w = Loaded).

(** The same click [n] times over. *)
Definition clicks (e : Event) (n : nat) : list Event := repeat e n.

(** A computation that keeps a property of the world. *)
Definition preserves {A : Type} (P : World -> Prop) (c : M A) : Prop :=
  forall w, P w -> P (snd (c w)).

(** While the flag is up, a call of [handleConvert] to one of the two
    libraries is outstanding. *)
Definition flagMeansCall (w : World) : Prop :=
  isConverting (ui w) = true -> existsb isLibraryCall (pending w) = true.

(** The selected file and the name kept for the download belong together;
    before any file is selected the page is empty and only classifications
    can be outstanding. *)
Definition fileAndName (w : World) : Prop :=
  match selectedFile (ui w) with
  | Some file => originalFileName (ui w) = file_name file
  | None =>
      originalFileName (ui w) = "" /\
      convertedBlob (ui w) = None /\
      previewUrl (ui w) = None /\
      isConverting (ui w) = false /\
      isHeicFile (ui w) = false /\
      forallb isClassification (pending w) = true
  end.

(** [pieces.join(sep)]. *)
Fixpoint join (sep : ascii) (pieces : list string) : string :=
  match pieces with
  | [] => ""
  | [piece] => piece
  | piece :: rest => piece ++ String sep (join sep rest)
  end.

(** A change of the format menu or of the quality slider. *)
Definition isSetting (e : Event) : bool :=
  match e with
  | ChangeFormat _ | ChangeQuality _ => true
  | _ => false
  end.

(** * The variant of the page built on [heic2any] (src/unnamed/part_000)

    The same component with one menu, no [isHeicFile] hook, a HEIC file
    converted to JPEG as soon as it is dropped, and a [handleConvert] that
    has only the generic path and no [finally] block.  Blobs, files, URLs,
    handles, the canvas and the JavaScript primitives are those above. *)

Module Heic2anyPage.

(** [s.toLowerCase()] on the letters A to Z; every other character is left
    as it is (no character outside A to Z has one of the characters of
    [.heic] as its lower case, so the test below reads the same). *)
Definition lower (c : ascii) : ascii :=
  let n := nat_of_ascii c in
  if (65 <=? n)%nat && (n <=? 90)%nat then ascii_of_nat (n + 32) else c.

Fixpoint toLowerCase (s : string) : string :=
  match s with
  | EmptyString => EmptyString
  | String c rest => String (lower c) (toLowerCase rest)
  end.

(** [s.endsWith(suffix)]. *)
Fixpoint endsWith (s suffix : string) : bool :=
  String.eqb s suffix ||
  match s with
  | EmptyString => false
  | String _ rest => endsWith rest suffix
  end.

(** [name.replace(/\.heic$/i, '.jpg')]: the pattern is tried from the left
    at every position and matches where what is left of the name is [.heic]
    in any mix of upper and lower case. *)
Fixpoint replace_heic (name : string) : string :=
  if String.eqb (toLowerCase name) ".heic" then ".jpg"
  else match name with
       | EmptyString => EmptyString
       | String c rest => String c (replace_heic rest)
       end.

(** [file.type === 'image/heic' || file.name.toLowerCase().endsWith('.heic')],
    the test of [onDrop]. *)
Definition looksHeic (file : File) : bool :=
  String.eqb (blob_type (file_blob file)) "image/heic" ||
  endsWith (toLowerCase (file_name file)) ".heic".

(** What [heic2any] resolves with: a blob or an array of blobs. *)
Inductive Converted :=
| OneBlob (blob : Blob)
| Blobs (blobs : list Blob).

(** [Array.isArray(blob) ? blob[0] : blob]; [undefined] for an empty
    array. *)
Definition firstBlob (converted : Converted) : option Blob :=
  match converted with
  | OneBlob blob => Some blob
  | Blobs blobs => nth_error blobs 0
  end.

(** [new File([part], name, { type: 'image/jpeg' })]: the bytes of the part,
    those of the word [undefined] when the part is [undefined]. *)
Definition newJpegFile (part : option Blob) (name : string) : File :=
  mkFile name
    (mkBlob "image/jpeg"
       match part with
       | Some blob => blob_bytes blob
       | None => list_byte_of_string "undefined"
       end).

Definition FORMAT_CATEGORIES : FormatCategories :=
  [ ("Yaygın Formatlar",
      [ mkFormat "image/jpeg" "JPEG/JPG - En yaygın fotoğraf formatı";
        mkFormat "image/png" "PNG - Kayıpsız sıkıştırma";
        mkFormat "image/gif" "GIF - Animasyon desteği" ]);
    ("Modern Web Formatları",
      [ mkFormat "image/webp" "WebP - Modern web için optimize";
        mkFormat "image/avif" "AVIF - AV1 tabanlı yeni nesil format";
        mkFormat "image/heic" "HEIC - Apple yüksek verimli format" ]);
    ("Temel Formatlar",
      [ mkFormat "image/bmp" "BMP - Windows Bitmap";
        mkFormat "image/tiff" "TIFF - Yüksek kaliteli baskı" ]) ].

Record State := mkState {
  quality : Z;
  targetFormat : string;
  isConverting : bool;
  previewUrl : option Url;
  convertedBlob : option Blob;
  originalFileName : string;
  selectedFile : option File;
  isClient : bool
}.

Definition initialState : State :=
  mkState 80 "image/jpeg" false None None "" None false.

Inductive Effect :=
| console_error (message detail : string)
| saveAs (blob : Blob) (fileName : string)
| call_heic2any (blob : File) (toType : string) (q : Q)
| call_imageCompression (file : File) (options : ImageCompressionOptions)
| set_img_src (src : Url)
| call_toBlob (canvas : Canvas) (type : string) (q : Q).

Inductive Task :=
| AwaitHeic2any (file : File)
| AwaitImageCompression (file : File) (capturedFormat : string)
    (capturedQuality : Z)
| AwaitImageLoad (canvas : Canvas) (src : Url) (capturedFormat : string)
    (capturedQuality : Z)
| AwaitToBlob (canvas : Canvas) (type : string) (q : Q).

Inductive Outcome :=
| ResolvedConverted (converted : Converted)
| ResolvedFile (file : File)
| Rejected (error : string)
| ImageLoaded (width height : Z)
| ImageFailed
| Encoded (blob : option Blob).

Record World := mkWorld {
  ui : State;
  imageCompression : Handle;
  heic2any : Handle;
  objectUrls : list (Url * Blob);
  pending : list Task;
  trace : list Effect
}.

Definition initialWorld : World := mkWorld initialState Null Null [] [] [].

Definition M (A : Type) : Type := World -> A * World.

Definition ret {A : Type} (a : A) : M A := fun w => (a, w).

Definition bind {A B : Type} (c : M A) (k : A -> M B) : M B :=
  fun w => k (fst (c w)) (snd (c w)).

#[warnings="-notation-overridden"]
Notation "x <- c ;; k" := (bind c (fun x => k))
  (at level 61, c at next level, right associativity).
#[warnings="-notation-overridden"]
Notation "c ;; k" := (bind c (fun _ => k))
  (at level 61, right associativity).

Definition exec {A : Type} (c : M A) (w : World) : World := snd (c w).

Definition render : M State := fun w => (ui w, w).

Definition read {A : Type} (var : World -> A) : M A := fun w => (var w, w).

Definition update (f : State -> State) : M unit :=
  fun w => (tt, mkWorld (f (ui w)) (imageCompression w) (heic2any w)
                  (objectUrls w) (pending w) (trace w)).

Definition setTargetFormat (v : string) : M unit :=
  update (fun s => mkState (quality s) v (isConverting s) (previewUrl s)
    (convertedBlob s) (originalFileName s) (selectedFile s) (isClient s)).

Definition setQuality (v : Z) : M unit :=
  update (fun s => mkState v (targetFormat s) (isConverting s) (previewUrl s)
    (convertedBlob s) (originalFileName s) (selectedFile s) (isClient s)).

Definition setIsConverting (v : bool) : M unit :=
  update (fun s => mkState (quality s) (targetFormat s) v (previewUrl s)
    (convertedBlob s) (originalFileName s) (selectedFile s) (isClient s)).

Definition setPreviewUrl (v : option Url) : M unit :=
  update (fun s => mkState (quality s) (targetFormat s) (isConverting s) v
    (convertedBlob s) (originalFileName s) (selectedFile s) (isClient s)).

Definition setConvertedBlob (v : option Blob) : M unit :=
  update (fun s => mkState (quality s) (targetFormat s) (isConverting s)
    (previewUrl s) v (originalFileName s) (selectedFile s) (isClient s)).

Definition setOriginalFileName (v : string) : M unit :=
  update (fun s => mkState (quality s) (targetFormat s) (isConverting s)
    (previewUrl s) (convertedBlob s) v (selectedFile s) (isClient s)).

Definition setSelectedFile (v : option File) : M unit :=
  update (fun s => mkState (quality s) (targetFormat s) (isConverting s)
    (previewUrl s) (convertedBlob s) (originalFileName s) v (isClient s)).

Definition setIsClient (v : bool) : M unit :=
  update (fun s => mkState (quality s) (targetFormat s) (isConverting s)
    (previewUrl s) (convertedBlob s) (originalFileName s) (selectedFile s) v).

Definition emit (e : Effect) : M unit :=
  fun w => (tt, mkWorld (ui w) (imageCompression w) (heic2any w)
                  (objectUrls w) (pending w) (trace w ++ [e])).

Definition suspend (t : Task) : M unit :=
  fun w => (tt, mkWorld (ui w) (imageCompression w) (heic2any w)
                  (objectUrls w) (pending w ++ [t]) (trace w)).

Definition createObjectURL (blob : Blob) : M Url :=
  fun w => (length (objectUrls w),
            mkWorld (ui w) (imageCompression w) (heic2any w)
              (objectUrls w ++ [(length (objectUrls w), blob)])
              (pending w) (trace w)).

(** The name [handleDownload] saves under, from the two strings it reads. *)
Definition fileName (s : State) : string :=
  let extension := JS.index (JS.split "/" (targetFormat s)) 1 in
  if JS.truthy (originalFileName s)
  then JS.template (JS.index (JS.split "." (originalFileName s)) 0)
         ++ "." ++ JS.template extension
  else "converted-image." ++ JS.template extension.

Definition handleDownload : M unit :=
  s <- render ;;
  match convertedBlob s with
  | Some blob => emit (saveAs blob (fileName s))
  | None => ret tt
  end.

(** [handleConvert] up to [await imageCompression(...)]. *)
Definition handleConvert : M unit :=
  s <- render ;;
  imageCompression_ <- read imageCompression ;;
  match selectedFile s with
  | None => ret tt
  | Some file =>
      if negb (loaded imageCompression_) then ret tt
      else
        setIsConverting true ;;
        setPreviewUrl None ;;
        setConvertedBlob None ;;
        emit (call_imageCompression file (mkCompressionOptions 1 1920 true)) ;;
        suspend (AwaitImageCompression file (targetFormat s) (quality s))
  end.

(** The tail of [onDrop]: the four setters. *)
Definition select (file : File) : M unit :=
  setOriginalFileName (file_name file) ;;
  setSelectedFile (Some file) ;;
  url <- createObjectURL (file_blob file) ;;
  setPreviewUrl (Some url) ;;
  setConvertedBlob None.

(** [onDrop] up to the [await] inside [convertHeicToJpeg], which throws
    before its [try] when [heic2any] is not loaded. *)
Definition onDrop (acceptedFiles : list File) : M unit :=
  match acceptedFiles with
  | [] => ret tt
  | file :: _ =>
      if looksHeic file then
        heic2any_ <- read heic2any ;;
        if negb (loaded heic2any_) then
          emit (console_error "HEIC dosyası dönüştürülemedi:"
                  "HEIC dönüştürücü yüklenemedi")
        else
          emit (call_heic2any file "image/jpeg" (8 # 10)) ;;
          suspend (AwaitHeic2any file)
      else select file
  end.

(** The rest of a handler once its [await] or callback is settled.  A
    rejection of [heic2any] is logged by [convertHeicToJpeg], thrown again
    and logged by [onDrop]. *)
Definition resume (t : Task) (o : Outcome) : option (M unit) :=
  match t, o with
  | AwaitHeic2any file, ResolvedConverted converted =>
      Some (select (newJpegFile (firstBlob converted)
                      (replace_heic (file_name file))))
  | AwaitHeic2any _, Rejected error =>
      Some (emit (console_error "HEIC dönüştürme hatası:" error) ;;
            emit (console_error "HEIC dosyası dönüştürülemedi:" error))
  | AwaitImageCompression _ capturedFormat capturedQuality,
    ResolvedFile compressedFile =>
      Some (url <- createObjectURL (file_blob compressedFile) ;;
            emit (set_img_src url) ;;
            suspend (AwaitImageLoad createElement_canvas url capturedFormat
                       capturedQuality))
  | AwaitImageCompression _ _ _, Rejected error =>
      Some (emit (console_error "Dönüştürme hatası:" error) ;;
            setIsConverting false)
  | AwaitImageLoad canvas src capturedFormat capturedQuality,
    ImageLoaded width height =>
      let canvas := set_canvas_width canvas width in
      let canvas := set_canvas_height canvas height in
      let canvas := drawImage canvas src in
      Some (emit (call_toBlob canvas capturedFormat
                    (fraction capturedQuality)) ;;
            suspend (AwaitToBlob canvas capturedFormat
                       (fraction capturedQuality)))
  | AwaitImageLoad _ _ _ _, ImageFailed => Some (ret tt)
  | AwaitToBlob _ _ _, Encoded (Some blob) =>
      Some (setConvertedBlob (Some blob) ;;
            url <- createObjectURL blob ;;
            setPreviewUrl (Some url) ;;
            setIsConverting false)
  | AwaitToBlob _ _ _, Encoded None => Some (setIsConverting false)
  | _, _ => None
  end.

Inductive Event :=
| Mounted
| Imported_imageCompression
| Imported_heic2any
| Drop (acceptedFiles : list File)
| ChangeFormat (v : string)
| ChangeQuality (v : Z)
| ClickConvert
| ClickDownload
| Settle (i : nat) (o : Outcome).

Definition assign_imageCompression : M unit :=
  fun w => (tt, mkWorld (ui w) Loaded (heic2any w)
                  (objectUrls w) (pending w) (trace w)).

Definition assign_heic2any : M unit :=
  fun w => (tt, mkWorld (ui w) (imageCompression w) Loaded
                  (objectUrls w) (pending w) (trace w)).

Definition take (i : nat) : M (option Task) :=
  fun w => (nth_error (pending w) i,
            mkWorld (ui w) (imageCompression w) (heic2any w)
              (objectUrls w) (firstn i (pending w) ++ skipn (S i) (pending w))
              (trace w)).

(** The convert button: [disabled={!selectedFile || isConverting}]. *)
Definition convertDisabled (s : State) : bool :=
  match selectedFile s with
  | None => true
  | Some _ => isConverting s
  end.

Definition step (w : World) (e : Event) : World :=
  match e with
  | Mounted => exec (setIsClient true) w
  | Imported_imageCompression => exec assign_imageCompression w
  | Imported_heic2any => exec assign_heic2any w
  | Drop acceptedFiles =>
      if isClient (ui w) then exec (onDrop acceptedFiles) w else w
  | ChangeFormat v =>
      if isClient (ui w) then exec (setTargetFormat v) w else w
  | ChangeQuality v =>
      if isClient (ui w) then exec (setQuality v) w else w
  | ClickConvert =>
      if isClient (ui w) && negb (convertDisabled (ui w))
      then exec handleConvert w else w
  | ClickDownload =>
      if isClient (ui w) && isSome (convertedBlob (ui w))
      then exec handleDownload w else w
  | Settle i o =>
      match nth_error (pending w) i with
      | Some t =>
          match resume t o with
          | Some rest => exec (take i ;; rest) w
          | None => w
          end
      | None => w
      end
  end.

Definition run (w : World) (events : list Event) : World :=
  fold_left step events w.

Definition reachable (w : World) : Prop :=
  exists events, w = run initialWorld events.

(** A task of [handleConvert]: one of the three stages of a conversion. *)
Definition isConversion (t : Task) : bool :=
  match t with
  | AwaitHeic2any _ => false
  | _ => true
  end.

(** The number of conversions under way. *)
Definition conversions (tasks : list Task) : nat :=
  length (filter isConversion tasks).

(** At most one conversion is under way, and while one is the flag is
    up. *)
Definition oneAtATime (w : World) : Prop :=
  (conversions (pending w) <= 1)%nat /\
  (conversions (pending w) = 1%nat -> isConverting (ui w) = true).

(** The selected file does not look like a HEIC, and the name kept for the
    download is its name. *)
Definition selectedIsPlain (w : World) : Prop :=
  match selectedFile (ui w) with
  | Some file => looksHeic file = false /\
                 originalFileName (ui w) = file_name file
  | None => originalFileName (ui w) = ""
  end.

(** The flag is up with no conversion under way to take it down. *)
Definition wedged (w : World) : Prop :=
  isConverting (ui w) = true /\ conversions (pending w) = O.

Definition IMG_0042 : File :=
  mkFile "IMG_0042.HEIC" (mkBlob "" [Byte.x00; Byte.x00; Byte.x00]).

Definition ready : World :=
  run initialWorld [Mounted; Imported_imageCompression; Imported_heic2any].

(** [photo.png] dropped and the first conversion up to the image load. *)
Definition decoding : World :=
  run ready [Drop [photo_png]; ClickConvert;
             Settle 0 (ResolvedFile compressed_png)].

End Heic2anyPage.

(** * Properties *)

(** ** Strings *)

Section Split.

Variable sep : ascii.

Lemma split_not_nil (s : string) : JS.split sep s <> [].
Proof.
  destruct s as [|c rest]; simpl; [discriminate|].
  destruct (Ascii.eqb c sep); [discriminate|].
  destruct (JS.split sep rest); discriminate.
Qed.

(** With at most one separator the first piece is the text before it. *)
Lemma split_first_beforeLast (s : string) :
  (JS.count sep s <= 1)%nat ->
  JS.index (JS.split sep s) 0 = Some (beforeLast sep s).
Proof.
  induction s as [|c rest IH]; simpl; intros Hcount; [reflexivity|].
  destruct (Ascii.eqb c sep) eqn:Hc; simpl in *.
  - replace (JS.count sep rest) with O by lia. reflexivity.
  - specialize (IH Hcount).
    destruct (JS.split sep rest) as [|piece pieces] eqn:Hsplit.
    + exfalso. exact (split_not_nil rest Hsplit).
    + simpl in *. congruence.
Qed.

(** In general the first piece stops at the first separator. *)
Lemma split_first_stops (a b : string) :
  JS.count sep a = O ->
  JS.index (JS.split sep (a ++ String sep b)) 0 = Some a.
Proof.
  induction a as [|c rest IH]; simpl; intros Hcount.
  - rewrite Ascii.eqb_refl. reflexivity.
  - destruct (Ascii.eqb c sep) eqn:Hc; [discriminate|].
    specialize (IH Hcount).
    destruct (JS.split sep (rest ++ String sep b)) as [|piece pieces];
      simpl in *; congruence.
Qed.

End Split.

(** With at most one [/] the second piece is the MIME subtype. *)
Lemma split_second_subtype (mime : string) :
  (JS.count "/" mime <= 1)%nat ->
  JS.index (JS.split "/" mime) 1 = subtype mime.
Proof.
  induction mime as [|c rest IH]; simpl; intros Hcount; [reflexivity|].
  destruct (Ascii.eqb c "/") eqn:Hc; simpl in *.
  - assert (Hrest : JS.count "/" rest = O) by lia.
    clear - Hrest. unfold JS.index.
    destruct rest as [|d rest]; simpl in *; [reflexivity|].
    destruct (Ascii.eqb d "/"); [discriminate|].
    assert (Hone : forall s, JS.count "/" s = O -> JS.split "/" s = [s]).
    { clear. induction s as [|e s IHs]; simpl; intros H; [reflexivity|].
      destruct (Ascii.eqb e "/"); [discriminate|]. rewrite IHs; auto. }
    rewrite Hone by assumption. reflexivity.
  - specialize (IH Hcount).
    destruct (JS.split "/" rest) as [|piece pieces] eqn:Hsplit.
    + exfalso. exact (split_not_nil "/" rest Hsplit).
    + exact IH.
Qed.

Lemma append_cancel_l (a b c : string) : a ++ b = a ++ c -> b = c.
Proof.
  induction a as [|x a IH]; simpl; intros H; [exact H|].
  injection H as H. auto.
Qed.

(** ** Downloading *)

(** The name under which [handleDownload] saves, whatever the names and
    formats are: the first piece of the original name, a dot, and the second
    piece of the selected target format. *)
Lemma handleDownload_saves (w : World) (blob : Blob) :
  convertedBlob (ui w) = Some blob ->
  exec handleDownload w = exec (emit (saveAs blob (fileName (ui w)))) w.
Proof.
  intros Hblob. unfold handleDownload, exec, bind, render. simpl.
  rewrite Hblob. reflexivity.
Qed.

Lemma handleDownload_without_result (w : World) :
  convertedBlob (ui w) = None -> exec handleDownload w = w.
Proof.
  intros Hblob. unfold handleDownload, exec, bind, render. simpl.
  rewrite Hblob. reflexivity.
Qed.

(** C3, amended.  With a result present, a target format holding one [/]
    and an original name holding at most one [.], [handleDownload] saves the
    result blob under the text before the name's dot (the placeholder
    [converted-image] when the name is empty), a dot, and the subtype of the
    currently selected target format, and does nothing else. *)
Theorem C3_download_name (w : World) (blob : Blob) (sub : string) :
  convertedBlob (ui w) = Some blob ->
  (JS.count "." (originalFileName (ui w)) <= 1)%nat ->
  (JS.count "/" (targetFormat (ui w)) <= 1)%nat ->
  subtype (targetFormat (ui w)) = Some sub ->
  exec handleDownload w =
  exec (emit (saveAs blob
          ((if JS.truthy (originalFileName (ui w))
            then beforeLast "." (originalFileName (ui w))
            else "converted-image") ++ "." ++ sub))) w.
Proof.
  intros Hblob Hdots Hslashes Hsub.
  rewrite (handleDownload_saves w blob Hblob).
  unfold fileName, extension.
  rewrite (split_second_subtype _ Hslashes), Hsub.
  rewrite (split_first_beforeLast "." _ Hdots).
  destruct (JS.truthy (originalFileName (ui w))); reflexivity.
Qed.

(** The scenario of the specification: [photo.heic] converted to
    [image/jpeg] is saved as [photo.jpeg]. *)
Lemma C3_download_name_witness :
  trace (exec handleDownload heicConverted) =
  (trace heicConverted ++ [saveAs jpeg "photo.jpeg"])%list.
Proof.
  rewrite (C3_download_name heicConverted jpeg "jpeg");
    [reflexivity | reflexivity | simpl; lia | simpl; lia | reflexivity].
Defined.

(** C3 as stated fails: the download of the converted [photo.heic] is not
    named [photo.jpg], and a name with two dots is cut at its first dot, not
    at its last. *)
Lemma C3_counterexample :
  (convertedBlob (ui heicConverted) = Some jpeg /\
   trace (run heicConverted [ClickDownload]) =
     (trace heicConverted ++ [saveAs jpeg "photo.jpeg"])%list /\
   ~ In (saveAs jpeg "photo.jpg") (trace (run heicConverted [ClickDownload])))
  /\
  (convertedBlob (ui holidayConverted) = Some jpeg /\
   trace (run holidayConverted [ClickDownload]) =
     (trace holidayConverted ++ [saveAs jpeg "holiday.jpeg"])%list /\
   beforeLast "." (originalFileName (ui holidayConverted)) = "holiday.2024").
Proof.
  repeat split; try reflexivity.
  vm_compute. intros H.
  repeat (destruct H as [H|H]; [discriminate H|]). exact H.
Qed.

Ltac open_world w :=
  destruct w as [[q tf conv prev res name sel client heicFile]
                   libC libH libI urls tasks tr];
  simpl in *.

Ltac in_cases H :=
  repeat (destruct H as [H|H]; [symmetry in H|]); [..|contradiction H].

(** C9.  With a result present, selecting another format of the menu and
    then downloading saves the very same blob, bytes and MIME type those of
    the earlier conversion, under a name whose extension is the subtype of
    the newly selected format and differs from the one it had before.  The
    formats range over the full menu, which holds every option of either
    menu ([menu_in_standard]) and the selected format of every run driven
    from the menu ([targetFormat_on_menu]). *)
Theorem C9_extension_follows_targetFormat
    (w : World) (blob : Blob) (v : string) :
  convertedBlob (ui w) = Some blob ->
  In (targetFormat (ui w)) (values STANDARD_FORMATS) ->
  In v (values STANDARD_FORMATS) ->
  v <> targetFormat (ui w) ->
  let w' := exec (setTargetFormat v) w in
  convertedBlob (ui w') = Some blob /\
  exec handleDownload w = exec (emit (saveAs blob (fileName (ui w)))) w /\
  exec handleDownload w' = exec (emit (saveAs blob (fileName (ui w')))) w' /\
  extension (ui w') = subtype v /\
  extension (ui w') <> extension (ui w) /\
  fileName (ui w') <> fileName (ui w).
Proof.
  intros Hblob Hold Hnew Hdiff w'.
  assert (Hblob' : convertedBlob (ui w') = Some blob) by exact Hblob.
  split; [exact Hblob'|].
  split; [exact (handleDownload_saves w blob Hblob)|].
  split; [exact (handleDownload_saves w' blob Hblob')|].
  unfold fileName, extension. subst w'. simpl.
  clear Hblob Hblob'. open_world w.
  in_cases Hold; in_cases Hnew; subst; simpl;
    try (exfalso; apply Hdiff; reflexivity);
    (split; [reflexivity|]); (split; [discriminate|]);
    destruct (JS.truthy name); intros Heq;
    repeat (apply append_cancel_l in Heq); discriminate Heq.
Qed.

(** A PNG result kept while the menu moves to WebP: the download is named
    [photo.webp] and still carries the PNG. *)
Lemma C9_extension_follows_targetFormat_witness :
  let w := run pngEncoding [Settle 0 (Encoded (Some png))] in
  let w' := exec (setTargetFormat "image/webp") w in
  convertedBlob (ui w') = Some png /\
  trace (exec handleDownload w') =
    (trace w ++ [saveAs png "photo.webp"])%list /\
  extension (ui w') <> extension (ui w).
Proof.
  intros w w'.
  destruct (C9_extension_follows_targetFormat w png "image/webp")
    as (Hblob & _ & Hsave & _ & Hext & _).
  - reflexivity.
  - simpl. auto.
  - simpl. auto 10.
  - discriminate.
  - split; [exact Hblob|]. split; [|exact Hext].
    subst w'. rewrite Hsave. vm_compute. reflexivity.
Defined.

(** ** Converting without the re-compression library *)

(** C10.  [handleConvert] on a file that is not HEIC while
    [imageCompression] is still [null] clears the preview and the result,
    then only runs its [finally] block: no result, no preview, nothing
    pending, no call made and no error logged. *)
Theorem C10_convert_before_library_loaded (w : World) (file : File) :
  selectedFile (ui w) = Some file ->
  isHeicFile (ui w) = false ->
  imageCompression w = Null ->
  let w' := exec handleConvert w in
  w' = exec (setIsConverting true ;; setPreviewUrl None ;;
             setConvertedBlob None ;; setIsConverting false) w /\
  previewUrl (ui w') = None /\
  convertedBlob (ui w') = None /\
  isConverting (ui w') = false /\
  selectedFile (ui w') = Some file /\
  pending w' = pending w /\
  trace w' = trace w /\
  objectUrls w' = objectUrls w.
Proof.
  intros Hfile Hheic Hlib w'. subst w'.
  open_world w. subst. repeat split; reflexivity.
Qed.

Lemma C10_convert_before_library_loaded_witness :
  let w := run compressionMissing
             [Drop [photo_png]; Settle 0 (ResolvedBool false)] in
  let w' := exec handleConvert w in
  previewUrl (ui w) = Some 0%nat /\
  previewUrl (ui w') = None /\
  convertedBlob (ui w') = None /\
  pending w' = [] /\
  errors (trace w') = [].
Proof.
  intros w w'.
  destruct (C10_convert_before_library_loaded w photo_png)
    as (_ & Hprev & Hblob & _ & _ & Hpend & Htrace & _);
    [reflexivity | reflexivity | reflexivity |].
  subst w'. rewrite Hprev, Hblob, Hpend, Htrace.
  vm_compute. repeat split; reflexivity.
Defined.

(** ** Quality *)

Ltac break_match :=
  match goal with
  | |- context [match ?x with _ => _ end] => destruct x eqn:?
  | |- context [if ?x then _ else _] => destruct x eqn:?
  end.





(** ** Accepting a file *)

Section LastTask.

Context {A : Type}.

Lemma nth_error_last (l : list A) (t : A) :
  nth_error (l ++ [t]) (length l) = Some t.
Proof.
  induction l as [|x l IH]; simpl; [reflexivity | exact IH].
Qed.

Lemma remove_last (l : list A) (t : A) :
  (firstn (length l) (l ++ [t]) ++ skipn (S (length l)) (l ++ [t]))%list = l.
Proof.
  induction l as [|x l IH]; simpl; [reflexivity|].
  simpl in IH. rewrite IH. reflexivity.
Qed.

End LastTask.

Lemma drop_then_classified
    (w : World) (file : File) (others : list File) (fileIsHeic : bool) :
  isClient (ui w) = true ->
  isHeic w = Loaded ->
  run w [Drop (file :: others);
         Settle (length (pending w)) (ResolvedBool fileIsHeic)] =
  accepted file fileIsHeic w.
Proof.
  intros Hclient Hloaded. open_world w. subst.
  unfold exec, onDrop, bind, render, read, emit, suspend.
  cbn -[firstn skipn nth_error]. rewrite nth_error_last.
  unfold exec, bind, take. cbn -[firstn skipn nth_error].
  rewrite remove_last. reflexivity.
Qed.

Lemma run_settings (during : list Event) :
  forallb isSetting during = true ->
  forall q tf conv prev res name sel client heicFile
         libC libH libI urls tasks tr,
  exists q' tf',
    run (mkWorld (mkState q tf conv prev res name sel client heicFile)
           libC libH libI urls tasks tr) during =
    mkWorld (mkState q' tf' conv prev res name sel client heicFile)
      libC libH libI urls tasks tr.
Proof.
  induction during as [|e during IH]; intros Hall; intros.
  - exists q, tf. reflexivity.
  - simpl in Hall. apply andb_prop in Hall. destruct Hall as [He Hall].
    destruct e; try discriminate He; simpl; destruct client; apply IH, Hall.
Qed.

(** C4, amended.  A dropped file that [isHeic] classifies replaces the
    selected file and its name, clears the result and gets a fresh preview
    URL for its own bytes; the target format becomes [image/jpeg] when the
    file is HEIC and otherwise the value it had when the file was dropped:
    that value is captured by [onDrop] and written back when [isHeic]
    answers, whatever the menu was moved to in between.  Files after the
    first are ignored. *)
Theorem C4_accept_file :
  (forall (w : World) (i : nat) (file : File) (captured : string)
          (fileIsHeic : bool),
      nth_error (pending w) i = Some (AwaitIsHeic file captured) ->
      let w' := step w (Settle i (ResolvedBool fileIsHeic)) in
      selectedFile (ui w') = Some file /\
      originalFileName (ui w') = file_name file /\
      isHeicFile (ui w') = fileIsHeic /\
      targetFormat (ui w') =
        (if fileIsHeic then "image/jpeg" else captured) /\
      convertedBlob (ui w') = None /\
      previewUrl (ui w') = Some (length (objectUrls w)) /\
      objectUrls w' =
        (objectUrls w ++ [(length (objectUrls w), file_blob file)])%list /\
      quality (ui w') = quality (ui w) /\
      isConverting (ui w') = isConverting (ui w) /\
      trace w' = trace w) /\
  (forall (w : World) (file : File) (others : list File),
      isClient (ui w) = true ->
      isHeic w = Loaded ->
      step w (Drop (file :: others)) =
      exec (emit (call_isHeic file) ;;
            suspend (AwaitIsHeic file (targetFormat (ui w)))) w) /\
  (forall (w : World) (file : File) (others : list File)
          (fileIsHeic : bool) (during : list Event),
      isClient (ui w) = true ->
      isHeic w = Loaded ->
      forallb isSetting during = true ->
      let w' := run w (Drop (file :: others) :: during
                         ++ [Settle (length (pending w))
                               (ResolvedBool fileIsHeic)]) in
      selectedFile (ui w') = Some file /\
      originalFileName (ui w') = file_name file /\
      isHeicFile (ui w') = fileIsHeic /\
      targetFormat (ui w') =
        (if fileIsHeic then "image/jpeg" else targetFormat (ui w)) /\
      convertedBlob (ui w') = None /\
      previewUrl (ui w') = Some (length (objectUrls w)) /\
      objectUrls w' =
        (objectUrls w ++ [(length (objectUrls w), file_blob file)])%list /\
      pending w' = pending w /\
      trace w' = (trace w ++ [call_isHeic file])%list) /\
  (forall (w : World) (file : File) (others : list File)
          (fileIsHeic : bool),
      isClient (ui w) = true ->
      isHeic w = Loaded ->
      run w [Drop (file :: others);
             Settle (length (pending w)) (ResolvedBool fileIsHeic)] =
      accepted file fileIsHeic w).
Proof.
  split; [|split; [|split]].
  - intros w i file captured fileIsHeic Htask w'. subst w'.
    unfold step. rewrite Htask. repeat split.
  - intros w file others Hclient Hloaded.
    destruct w as [[q tf conv prev res name sel client heicFile]
                     libC libH libI urls tasks tr].
    cbn [ui isHeic isClient] in *. subst. reflexivity.
  - intros w file others fileIsHeic during Hclient Hloaded Hduring w'.
    subst w'.
    destruct w as [[q tf conv prev res name sel client heicFile]
                     libC libH libI urls tasks tr].
    cbn [ui isHeic isClient pending objectUrls trace targetFormat] in *.
    subst.
    change (run ?w (Drop ?files :: ?rest))
      with (run (step w (Drop files)) rest).
    assert (Hdrop :
      step (mkWorld (mkState q tf conv prev res name sel true heicFile)
              libC libH Loaded urls tasks tr) (Drop (file :: others)) =
      mkWorld (mkState q tf conv prev res name sel true heicFile)
        libC libH Loaded urls (tasks ++ [AwaitIsHeic file tf])
        (tr ++ [call_isHeic file])) by reflexivity.
    rewrite Hdrop. unfold run. rewrite fold_left_app.
    fold (run (mkWorld (mkState q tf conv prev res name sel true heicFile)
                 libC libH Loaded urls (tasks ++ [AwaitIsHeic file tf])
                 (tr ++ [call_isHeic file])) during).
    destruct (run_settings during Hduring q tf conv prev res name sel true
                heicFile libC libH Loaded urls
                (tasks ++ [AwaitIsHeic file tf]) (tr ++ [call_isHeic file]))
      as (q' & tf' & ->).
    cbn [fold_left]. unfold step. cbn [pending].
    rewrite nth_error_last. cbn [resume].
    unfold exec, bind, take. cbn -[firstn skipn].
    rewrite remove_last. repeat split.
  - intros w file others fileIsHeic Hclient Hloaded.
    exact (drop_then_classified w file others fileIsHeic Hclient Hloaded).
Qed.

(** A PNG is dropped while the menu stands on WebP and the menu is moved
    to PNG before [isHeic] answers: the answer puts WebP back.  A HEIC
    dropped afterwards moves the menu to JPEG. *)
Lemma C4_accept_file_witness :
  let w := run ready [ChangeFormat "image/webp"] in
  let w1 := run w [Drop [photo_png]; ChangeFormat "image/png";
                   Settle 0 (ResolvedBool false)] in
  let w2 := run w1 [Drop [photo_heic; photo_png];
                    Settle 0 (ResolvedBool true)] in
  (selectedFile (ui w1) = Some photo_png /\
   targetFormat (ui w1) = "image/webp") /\
  (selectedFile (ui w2) = Some photo_heic /\
   targetFormat (ui w2) = "image/jpeg" /\
   convertedBlob (ui w2) = None).
Proof.
  intros w w1 w2.
  destruct C4_accept_file as (_ & _ & Hmoved & _).
  pose proof (Hmoved w photo_png [] false [ChangeFormat "image/png"]
                eq_refl eq_refl eq_refl) as H1.
  pose proof (Hmoved w1 photo_heic [photo_png] true []
                eq_refl eq_refl eq_refl) as H2.
  vm_compute in H1, H2. vm_compute.
  destruct H1 as (Hfile1 & _ & _ & Hformat1 & _).
  destruct H2 as (Hfile2 & _ & _ & Hformat2 & Hblob2 & _).
  repeat split; assumption.
Defined.

(** C4 as stated fails: a file that is not HEIC, dropped while the menu
    stands on WebP, is accepted without the target format being reset to
    [image/jpeg]. *)
Lemma C4_counterexample :
  let w := run ready [ChangeFormat "image/webp"] in
  let w' := run w [Drop [photo_png]; Settle 0 (ResolvedBool false)] in
  selectedFile (ui w') = Some photo_png /\
  isHeicFile (ui w') = false /\
  targetFormat (ui w') = "image/webp" /\
  targetFormat (ui w') <> "image/jpeg".
Proof.
  vm_compute. repeat split. discriminate.
Qed.

(** ** Re-encoding *)

(** C2, amended.  When [toBlob] hands its callback a blob, the callback
    stores that blob as the result, whatever MIME type the blob has and
    whatever type was requested, gives it a fresh preview URL, ends the
    conversion and makes no call: in particular it logs no error. *)
Theorem C2_encoded_blob_stored_unchecked
    (w : World) (i : nat) (canvas : Canvas) (type : string) (q : Q)
    (blob : Blob) :
  nth_error (pending w) i = Some (AwaitToBlob canvas type q) ->
  let w' := step w (Settle i (Encoded (Some blob))) in
  convertedBlob (ui w') = Some blob /\
  previewUrl (ui w') = Some (length (objectUrls w)) /\
  objectUrls w' = (objectUrls w ++ [(length (objectUrls w), blob)])%list /\
  isConverting (ui w') = false /\
  trace w' = trace w /\
  errors (trace w') = errors (trace w).
Proof.
  intros Htask w'. subst w'. unfold step. rewrite Htask. simpl.
  repeat split; reflexivity.
Qed.

Lemma C2_encoded_blob_stored_unchecked_witness :
  let w' := step tiffEncoding (Settle 0 (Encoded (Some png))) in
  convertedBlob (ui w') = Some png /\ errors (trace w') = [].
Proof.
  intros w'.
  pose proof (C2_encoded_blob_stored_unchecked tiffEncoding 0
                (mkCanvas 640 480 (Some 1%nat)) "image/tiff" (fraction 80) png)
    as H.
  vm_compute in H. vm_compute.
  destruct (H eq_refl) as (Hblob & _ & _ & _ & _ & Herrors).
  split; assumption.
Defined.

(** C2 as stated fails: TIFF is requested, the primitive answers with a
    PNG, and the PNG becomes the result; no error is logged, and the
    download is named [photo.tiff]. *)
Lemma C2_counterexample :
  let w' := run tiffEncoding [Settle 0 (Encoded (Some png))] in
  pending tiffEncoding =
    [AwaitToBlob (mkCanvas 640 480 (Some 1%nat)) "image/tiff" (fraction 80)] /\
  isHeicFile (ui tiffEncoding) = false /\
  convertedBlob (ui w') = Some png /\
  blob_type png <> "image/tiff" /\
  errors (trace w') = [] /\
  trace (run w' [ClickDownload]) =
    (trace w' ++ [saveAs png "photo.tiff"])%list.
Proof.
  vm_compute. repeat split. discriminate.
Qed.

(** ** Object URLs *)

Section ExtendsUrls.

Context {A B : Type}.

Lemma extends_ret (a : A) : extends_urls (ret a).
Proof. intros w. exists []. simpl. now rewrite app_nil_r. Qed.

Lemma extends_bind (c : M A) (k : A -> M B) :
  extends_urls c -> (forall a, extends_urls (k a)) ->
  extends_urls (bind c k).
Proof.
  intros Hc Hk w. unfold bind.
  destruct (Hc w) as [more1 H1].
  destruct (Hk (fst (c w)) (snd (c w))) as [more2 H2].
  exists (more1 ++ more2)%list. rewrite H2, H1. now rewrite app_assoc.
Qed.

Lemma extends_read (var : World -> A) : extends_urls (read var).
Proof. intros w. exists []. simpl. now rewrite app_nil_r. Qed.

End ExtendsUrls.

Lemma extends_render : extends_urls render.
Proof. intros w. exists []. simpl. now rewrite app_nil_r. Qed.

Lemma extends_update (f : State -> State) : extends_urls (update f).
Proof. intros w. exists []. simpl. now rewrite app_nil_r. Qed.

Lemma extends_emit (e : Effect) : extends_urls (emit e).
Proof. intros w. exists []. simpl. now rewrite app_nil_r. Qed.

Lemma extends_suspend (t : Task) : extends_urls (suspend t).
Proof. intros w. exists []. simpl. now rewrite app_nil_r. Qed.

Lemma extends_take (i : nat) : extends_urls (take i).
Proof. intros w. exists []. simpl. now rewrite app_nil_r. Qed.

Lemma extends_createObjectURL (blob : Blob) :
  extends_urls (createObjectURL blob).
Proof. intros w. exists [(length (objectUrls w), blob)]. reflexivity. Qed.

Lemma extends_assign_imageCompression : extends_urls assign_imageCompression.
Proof. intros w. exists []. simpl. now rewrite app_nil_r. Qed.

Lemma extends_assign_heicTo : extends_urls assign_heicTo.
Proof. intros w. exists []. simpl. now rewrite app_nil_r. Qed.

Create HintDb urls.

#[local] Hint Resolve extends_ret extends_read extends_render extends_update
  extends_emit extends_suspend extends_take extends_createObjectURL
  extends_assign_imageCompression extends_assign_heicTo : urls.

#[local] Hint Unfold setQuality setTargetFormat setIsConverting setPreviewUrl
  setConvertedBlob setOriginalFileName setSelectedFile setIsClient
  setIsHeicFile : urls.

Ltac extends_tac :=
  repeat first
    [ apply extends_bind; [|intros ?]
    | progress autounfold with urls
    | solve [auto with urls]
    | break_match ].

Lemma extends_handleDownload : extends_urls handleDownload.
Proof. unfold handleDownload. extends_tac. Qed.

Lemma extends_handleConvert : extends_urls handleConvert.
Proof. unfold handleConvert. extends_tac. Qed.

Lemma extends_onDrop (acceptedFiles : list File) :
  extends_urls (onDrop acceptedFiles).
Proof. unfold onDrop. extends_tac. Qed.

Lemma extends_resume (t : Task) (o : Outcome) (rest : M unit) :
  resume t o = Some rest -> extends_urls rest.
Proof.
  destruct t, o; simpl; intros H; try discriminate H;
    try (destruct blob; simpl in H);
    injection H as <-; extends_tac.
Qed.

(** No turn of the event loop takes a URL out of the registry. *)
Lemma step_extends_urls (w : World) (e : Event) :
  exists more, objectUrls (step w e) = (objectUrls w ++ more)%list.
Proof.
  assert (Hstay : exists more, objectUrls w = (objectUrls w ++ more)%list)
    by (exists []; now rewrite app_nil_r).
  destruct e; unfold step, exec.
  - apply extends_update.
  - apply extends_assign_imageCompression.
  - apply extends_assign_heicTo.
  - destruct (isClient (ui w)); [apply extends_onDrop | exact Hstay].
  - destruct (isClient (ui w)); [apply extends_update | exact Hstay].
  - destruct (isClient (ui w)); [apply extends_update | exact Hstay].
  - destruct (isClient (ui w) && negb (convertDisabled (ui w)));
      [apply extends_handleConvert | exact Hstay].
  - destruct (isClient (ui w) && isSome (convertedBlob (ui w)));
      [apply extends_handleDownload | exact Hstay].
  - destruct (nth_error (pending w) i) as [t|]; [|exact Hstay].
    destruct (resume t o) as [rest|] eqn:Hrest; [|exact Hstay].
    apply extends_bind; [apply extends_take | intros _].
    exact (extends_resume t o rest Hrest).
Qed.

Lemma run_extends_urls (events : list Event) (w : World) :
  exists more, objectUrls (run w events) = (objectUrls w ++ more)%list.
Proof.
  revert w. induction events as [|e events IH]; intros w; simpl.
  - exists []. now rewrite app_nil_r.
  - destruct (IH (step w e)) as [more2 H2].
    destruct (step_extends_urls w e) as [more1 H1].
    exists (more1 ++ more2)%list. rewrite H2, H1. now rewrite app_assoc.
Qed.

Lemma reselect_urls (n : nat) (file : File) (w : World) :
  isClient (ui w) = true -> isHeic w = Loaded -> pending w = [] ->
  length (objectUrls (run w (reselect n file))) =
  (length (objectUrls w) + n)%nat.
Proof.
  revert w. induction n as [|n IH]; intros w Hclient Hloaded Hpending.
  - simpl. lia.
  - pose proof (drop_then_classified w file [] false Hclient Hloaded) as Hstep.
    rewrite Hpending in Hstep. simpl in Hstep.
    change (run w (reselect (S n) file))
      with (run (run w [Drop [file]; Settle 0 (ResolvedBool false)])
                (reselect n file)).
    simpl (run w [_; _]). rewrite Hstep.
    rewrite IH by (simpl; assumption).
    simpl. rewrite length_app. simpl. lia.
Qed.

(** Settling the task that was suspended last. *)
Lemma settle_last
    (s : State) (libC libH libI : Handle) (urls : list (Url * Blob))
    (tasks : list Task) (tr : list Effect)
    (t : Task) (o : Outcome) (rest : M unit) :
  resume t o = Some rest ->
  step (mkWorld s libC libH libI urls (tasks ++ [t]) tr)
       (Settle (length tasks) o) =
  exec rest (mkWorld s libC libH libI urls tasks tr).
Proof.
  intros Hrest. unfold step. cbn [pending].
  rewrite nth_error_last, Hrest.
  unfold exec, bind, take. cbn -[firstn skipn].
  rewrite remove_last. reflexivity.
Qed.

Lemma convert_then_heicTo_resolved (w : World) (file : File) (blob : Blob) :
  isClient (ui w) = true ->
  selectedFile (ui w) = Some file ->
  isConverting (ui w) = false ->
  isHeicFile (ui w) = true ->
  heicTo w = Loaded ->
  run w [ClickConvert; Settle (length (pending w)) (ResolvedBlob blob)] =
  heicResult file blob w.
Proof.
  intros Hclient Hfile Hconv Hheic Hlib.
  destruct w as [[q tf conv prev res name sel client heicFile]
                   libC libH libI urls tasks tr].
  cbn [ui heicTo pending isClient selectedFile isConverting isHeicFile] in *.
  subst. unfold run. cbn [fold_left].
  set (options := mkHeicToOptions file tf (fraction q)).
  assert (Hclick :
    step (mkWorld (mkState q tf false prev res name (Some file) true true)
            libC Loaded libI urls tasks tr) ClickConvert =
    mkWorld (mkState q tf true None None name (Some file) true true)
      libC Loaded libI urls (tasks ++ [AwaitHeicTo options])
      (tr ++ [call_heicTo options])) by reflexivity.
  rewrite Hclick. erewrite settle_last by reflexivity. reflexivity.
Qed.

Lemma reconvert_urls (n : nat) (file : File) (blob : Blob) (w : World) :
  isClient (ui w) = true ->
  selectedFile (ui w) = Some file ->
  isConverting (ui w) = false ->
  isHeicFile (ui w) = true ->
  heicTo w = Loaded ->
  pending w = [] ->
  length (objectUrls (run w (reconvert n blob))) =
  (length (objectUrls w) + n)%nat.
Proof.
  revert w. induction n as [|n IH];
    intros w Hclient Hfile Hconv Hheic Hlib Hpending.
  - simpl. lia.
  - pose proof (convert_then_heicTo_resolved w file blob
                  Hclient Hfile Hconv Hheic Hlib) as Hstep.
    rewrite Hpending in Hstep. simpl in Hstep.
    change (run w (reconvert (S n) blob))
      with (run (run w [ClickConvert; Settle 0 (ResolvedBlob blob)])
                (reconvert n blob)).
    simpl (run w [_; _]). rewrite Hstep.
    rewrite IH by (simpl; auto).
    simpl. rewrite length_app. simpl. lia.
Qed.

(** C7, amended.  No object URL is ever released: every turn of the event
    loop leaves the registry of live URLs a prefix of what it becomes, so a
    URL stays live through every later run; each accepted file and each
    successful conversion adds one, and [n] selections or [n] conversions in
    a row leave [n] more URLs live. *)
Theorem C7_object_urls_only_accumulate :
  (forall (w : World) (e : Event),
      exists more, objectUrls (step w e) = (objectUrls w ++ more)%list) /\
  (forall (w : World) (events : list Event) (u : Url * Blob),
      In u (objectUrls w) -> In u (objectUrls (run w events))) /\
  (forall n : nat,
      length (objectUrls (run ready (reselect n photo_png))) = n) /\
  (forall n : nat,
      length (objectUrls (run heicSelected (reconvert n jpeg))) = S n).
Proof.
  split; [exact step_extends_urls|].
  split; [|split].
  - intros w events u Hu.
    destruct (run_extends_urls events w) as [more Hmore].
    rewrite Hmore. apply in_or_app. left. exact Hu.
  - intros n.
    rewrite (reselect_urls n photo_png ready); reflexivity.
  - intros n.
    rewrite (reconvert_urls n photo_heic jpeg heicSelected); reflexivity.
Qed.

Lemma C7_object_urls_only_accumulate_witness :
  In (0%nat, heic)
     (objectUrls (run heicSelected
                    [ClickConvert; Settle 0 (ResolvedBlob jpeg);
                     Drop [photo_png]; Settle 0 (ResolvedBool false)])).
Proof.
  apply (proj1 (proj2 C7_object_urls_only_accumulate)).
  vm_compute. left. reflexivity.
Defined.

(** C7 as stated fails: the preview URL of the first selection is
    superseded by that of the second and again by that of the conversion,
    and all three are still live. *)
Lemma C7_counterexample :
  let w1 := run ready [Drop [photo_png]; Settle 0 (ResolvedBool false)] in
  let w2 := run w1 [Drop [photo_heic]; Settle 0 (ResolvedBool true)] in
  let w3 := run w2 [ClickConvert; Settle 0 (ResolvedBlob jpeg)] in
  previewUrl (ui w1) = Some 0%nat /\
  previewUrl (ui w2) = Some 1%nat /\
  previewUrl (ui w3) = Some 2%nat /\
  objectUrls w3 = [(0%nat, png); (1%nat, heic); (2%nat, jpeg)].
Proof.
  vm_compute. repeat split.
Qed.

(** ** The generic path *)

(** C8, amended.  For a selected file that is not HEIC, once the
    re-compression library is loaded: [handleConvert] first calls it on the
    selected file with [maxSizeMB 1] and [maxWidthOrHeight 1920]; when it
    resolves, the compressed file is loaded into an image; when that has
    loaded, the canvas takes the image's width and height, the image is
    drawn on it, and [toBlob] is asked for the target format and
    [quality / 100] that were selected when the conversion started. *)
Theorem C8_generic_path
    (w : World) (file compressedFile : File) (width height : Z) :
  selectedFile (ui w) = Some file ->
  isHeicFile (ui w) = false ->
  imageCompression w = Loaded ->
  let n := length (pending w) in
  let src := length (objectUrls w) in
  let canvas := mkCanvas width height (Some src) in
  let format := targetFormat (ui w) in
  let q := quality (ui w) in
  let w1 := exec handleConvert w in
  let w2 := step w1 (Settle n (ResolvedFile compressedFile)) in
  let w3 := step w2 (Settle n (ImageLoaded width height)) in
  (trace w1 =
     (trace w ++ [call_imageCompression file
                    (mkCompressionOptions 1 1920 true)])%list /\
   pending w1 = (pending w ++ [AwaitImageCompression file format q])%list) /\
  (objectUrls w2 =
     (objectUrls w ++ [(src, file_blob compressedFile)])%list /\
   trace w2 = (trace w1 ++ [set_img_src src])%list /\
   pending w2 =
     (pending w ++ [AwaitImageLoad createElement_canvas src format q])%list) /\
  (trace w3 = (trace w2 ++ [call_toBlob canvas format (fraction q)])%list /\
   pending w3 = (pending w ++ [AwaitToBlob canvas format (fraction q)])%list /\
   canvas_width canvas = width /\ canvas_height canvas = height /\
   (fraction q == q # 100)%Q).
Proof.
  intros Hfile Hheic Hlib n src canvas format q w1 w2 w3.
  destruct w as [[q0 tf conv prev res name sel client heicFile]
                   libC libH libI urls tasks tr].
  cbn [ui imageCompression pending objectUrls trace selectedFile isHeicFile
       targetFormat quality] in *.
  subst sel heicFile libC.
  assert (H1 : w1 =
    mkWorld (mkState q0 tf true None None name (Some file) client false)
      Loaded libH libI urls (tasks ++ [AwaitImageCompression file tf q0])
      (tr ++ [call_imageCompression file (mkCompressionOptions 1 1920 true)])).
  { subst w1. reflexivity. }
  assert (H2 : w2 =
    mkWorld (mkState q0 tf false None None name (Some file) client false)
      Loaded libH libI (urls ++ [(length urls, file_blob compressedFile)])
      (tasks ++ [AwaitImageLoad createElement_canvas (length urls) tf q0])
      ((tr ++ [call_imageCompression file (mkCompressionOptions 1 1920 true)])
         ++ [set_img_src (length urls)])).
  { subst w2 n. rewrite H1. erewrite settle_last by reflexivity.
    reflexivity. }
  assert (H3 : w3 =
    mkWorld (mkState q0 tf false None None name (Some file) client false)
      Loaded libH libI (urls ++ [(length urls, file_blob compressedFile)])
      (tasks ++ [AwaitToBlob canvas tf (fraction q0)])
      (((tr ++ [call_imageCompression file
                  (mkCompressionOptions 1 1920 true)])
          ++ [set_img_src (length urls)])
         ++ [call_toBlob canvas tf (fraction q0)])).
  { subst w3 n. rewrite H2. erewrite settle_last by reflexivity.
    reflexivity. }
  rewrite H3, H2, H1. cbn [trace pending objectUrls].
  repeat split.
  subst q. unfold fraction, Qeq. simpl. lia.
Qed.

Lemma C8_generic_path_witness :
  trace pngEncoding =
    [call_isHeic photo_png;
     call_imageCompression photo_png (mkCompressionOptions 1 1920 true);
     set_img_src 1%nat;
     call_toBlob (mkCanvas 640 480 (Some 1%nat)) "image/jpeg" (80 # 100)].
Proof.
  pose proof (C8_generic_path pngSelected photo_png compressed_png 640 480)
    as H.
  vm_compute in H. vm_compute.
  destruct (H eq_refl eq_refl eq_refl) as (_ & _ & Htrace & _).
  exact Htrace.
Defined.

(** C8 as stated fails: with the re-compression library not yet loaded, a
    conversion of a file that is not HEIC calls nothing and leaves nothing
    pending. *)
Lemma C8_counterexample :
  let w := run compressionMissing
             [Drop [photo_png]; Settle 0 (ResolvedBool false)] in
  let w' := run w [ClickConvert] in
  selectedFile (ui w) = Some photo_png /\
  isHeicFile (ui w) = false /\
  w' = exec handleConvert w /\
  compressions (trace w') = [] /\
  trace w' = trace w /\
  pending w' = [].
Proof.
  vm_compute. repeat split.
Qed.

(** ** Failures *)

Section Failures.

Variables (w : World) (i : nat) (error : string).

(** A rejection of [heicTo] is caught: logged, and the flag reset. *)
Lemma heicTo_rejected (options : HeicToOptions) :
  nth_error (pending w) i = Some (AwaitHeicTo options) ->
  let w' := step w (Settle i (Rejected error)) in
  isConverting (ui w') = false /\
  convertedBlob (ui w') = convertedBlob (ui w) /\
  selectedFile (ui w') = selectedFile (ui w) /\
  trace w' = (trace w ++ [console_error "Dönüştürme hatası:" error])%list.
Proof.
  intros Htask w'. subst w'. unfold step. rewrite Htask.
  repeat split; reflexivity.
Qed.

(** So is a rejection of [imageCompression]. *)
Lemma imageCompression_rejected (file : File) (format : string) (q : Z) :
  nth_error (pending w) i = Some (AwaitImageCompression file format q) ->
  let w' := step w (Settle i (Rejected error)) in
  isConverting (ui w') = false /\
  convertedBlob (ui w') = convertedBlob (ui w) /\
  selectedFile (ui w') = selectedFile (ui w) /\
  trace w' = (trace w ++ [console_error "Dönüştürme hatası:" error])%list.
Proof.
  intros Htask w'. subst w'. unfold step. rewrite Htask.
  repeat split; reflexivity.
Qed.

(** [toBlob] handing over [null] resets the flag and logs nothing. *)
Lemma toBlob_null (canvas : Canvas) (type : string) (q : Q) :
  nth_error (pending w) i = Some (AwaitToBlob canvas type q) ->
  let w' := step w (Settle i (Encoded None)) in
  isConverting (ui w') = false /\
  convertedBlob (ui w') = convertedBlob (ui w) /\
  selectedFile (ui w') = selectedFile (ui w) /\
  trace w' = trace w.
Proof.
  intros Htask w'. subst w'. unfold step. rewrite Htask.
  repeat split; reflexivity.
Qed.

(** An image that fails to load changes no state and logs nothing. *)
Lemma image_failed (canvas : Canvas) (src : Url) (format : string) (q : Z) :
  nth_error (pending w) i = Some (AwaitImageLoad canvas src format q) ->
  let w' := step w (Settle i ImageFailed) in
  ui w' = ui w /\ trace w' = trace w.
Proof.
  intros Htask w'. subst w'. unfold step. rewrite Htask.
  split; reflexivity.
Qed.

End Failures.

(** C5 on the code: a conversion whose re-encoding fails.  [toBlob] hands
    its callback [null]: the flag is reset, the file stays selected and no
    result appears, but nothing is logged, while a rejection of the
    re-compression in the same conversion is logged. *)
Theorem C5_encode_failure_unreported :
  pending pngEncoding =
    [AwaitToBlob (mkCanvas 640 480 (Some 1%nat)) "image/jpeg" (fraction 80)] /\
  (let w' := run pngEncoding [Settle 0 (Encoded None)] in
   isConverting (ui w') = false /\
   selectedFile (ui w') = Some photo_png /\
   convertedBlob (ui w') = None /\
   pending w' = [] /\
   errors (trace w') = []) /\
  (let w' := run pngDecoding [Settle 0 ImageFailed] in
   convertedBlob (ui w') = None /\
   pending w' = [] /\
   errors (trace w') = []) /\
  (let w' := run pngSelected
                [ClickConvert; Settle 0 (Rejected "out of memory")] in
   isConverting (ui w') = false /\
   convertedBlob (ui w') = None /\
   errors (trace w') =
     [console_error "Dönüştürme hatası:" "out of memory"]).
Proof.
  vm_compute. repeat split.
Qed.

(** ** One conversion at a time *)

(** [handleConvert] never reads [isConverting]: with a file selected it
    does the same whether or not a conversion is marked as running. *)
Lemma handleConvert_without_guard (w : World) (file : File) (b : bool) :
  selectedFile (ui w) = Some file ->
  exec handleConvert (exec (setIsConverting b) w) = exec handleConvert w.
Proof.
  intros Hfile. open_world w. subst.
  unfold exec, handleConvert, bind, render, read. simpl.
  repeat (break_match; simpl; try reflexivity).
Qed.

(** While the flag is up the button is disabled and a click does
    nothing. *)
Lemma click_ignored_while_flag_up (w : World) :
  isConverting (ui w) = true -> step w ClickConvert = w.
Proof.
  intros Hflag. unfold step, convertDisabled. rewrite Hflag.
  destruct (isClient (ui w)), (selectedFile (ui w)); reflexivity.
Qed.

(** On the HEIC path the flag stays up until [heicTo] has settled. *)
Lemma flag_up_during_heicTo (w : World) (file : File) :
  selectedFile (ui w) = Some file ->
  isHeicFile (ui w) = true ->
  heicTo w = Loaded ->
  isConverting (ui (exec handleConvert w)) = true.
Proof.
  intros Hfile Hheic Hlib. open_world w. subst. reflexivity.
Qed.

(** C1 on the code: a second conversion during the first.  Once the
    re-compression of the first conversion has resolved, [finally] has reset
    the flag although the image load and the encoding are still to come, so
    the button is enabled; a second click is taken, clears the state and
    starts a second conversion next to the first; both complete and both
    write the result, the first one last.  Called directly, [handleConvert]
    starts a second conversion even while the flag is up. *)
Theorem C1_second_convert_runs_alongside :
  (pending pngDecoding =
     [AwaitImageLoad createElement_canvas 1%nat "image/jpeg" 80] /\
   isConverting (ui pngDecoding) = false /\
   convertDisabled (ui pngDecoding) = false) /\
  (pending clickedAgain =
     [AwaitImageLoad createElement_canvas 1%nat "image/jpeg" 80;
      AwaitImageCompression photo_png "image/png" 80] /\
   isConverting (ui clickedAgain) = true /\
   length (compressions (trace clickedAgain)) = 2%nat) /\
  (convertedBlob (ui convertedAlone) = Some jpeg /\
   previewUrl (ui convertedAlone) = Some 2%nat) /\
  (convertedBlob
     (ui (run clickedAgain [Settle 1 (ResolvedFile compressed_png);
                            Settle 1 (ImageLoaded 640 480);
                            Settle 1 (Encoded (Some png))])) = Some png /\
   convertedBlob (ui raced) = Some jpeg /\
   previewUrl (ui raced) = Some 4%nat /\
   targetFormat (ui raced) = "image/png" /\
   trace (run raced [ClickDownload]) =
     (trace raced ++ [saveAs jpeg "photo.png"])%list) /\
  (let w := run pngSelected [ClickConvert] in
   isConverting (ui w) = true /\
   pending w = [AwaitImageCompression photo_png "image/jpeg" 80] /\
   run w [ClickConvert] = w /\
   pending (exec handleConvert w) =
     [AwaitImageCompression photo_png "image/jpeg" 80;
      AwaitImageCompression photo_png "image/jpeg" 80]).
Proof.
  vm_compute. repeat split.
Qed.

(** On the generic path the flag is reset as soon as the re-compression
    has resolved, with the image load of that conversion still pending. *)
Lemma compression_resolved_resets_flag
    (w : World) (i : nat) (file compressedFile : File)
    (format : string) (q : Z) :
  nth_error (pending w) i = Some (AwaitImageCompression file format q) ->
  let w' := step w (Settle i (ResolvedFile compressedFile)) in
  isConverting (ui w') = false /\
  In (AwaitImageLoad createElement_canvas (length (objectUrls w)) format q)
     (pending w').
Proof.
  intros Htask w'. subst w'. unfold step. rewrite Htask.
  split; [reflexivity|].
  unfold exec, bind, take. cbn -[firstn skipn].
  apply in_or_app. right. left. reflexivity.
Qed.

(** ** The selected format stays on the menu *)

Lemma heic_menu_in_standard (v : string) :
  In v (values HEIC_FORMATS) -> In v (values STANDARD_FORMATS).
Proof.
  simpl. intros [H|[H|[]]]; subst; auto.
Qed.

Lemma menu_in_standard (s : State) (v : string) :
  In v (values (formats s)) -> In v (values STANDARD_FORMATS).
Proof.
  unfold formats. destruct (isHeicFile s);
    [apply heic_menu_in_standard | trivial].
Qed.

Lemma capturedFormats_app (l1 l2 : list Task) :
  capturedFormats (l1 ++ l2) = (capturedFormats l1 ++ capturedFormats l2)%list.
Proof. apply flat_map_app. Qed.

Lemma captured_after_take (tasks : list Task) (i : nat) :
  Forall (fun format => In format (values STANDARD_FORMATS))
         (capturedFormats tasks) ->
  Forall (fun format => In format (values STANDARD_FORMATS))
         (capturedFormats (firstn i tasks ++ skipn (S i) tasks)).
Proof.
  intros Hall. rewrite capturedFormats_app. apply Forall_app.
  rewrite <- (firstn_skipn i tasks), capturedFormats_app in Hall.
  apply Forall_app in Hall. destruct Hall as [Hfirst Hrest].
  split; [exact Hfirst|].
  destruct (skipn i tasks) as [|t rest] eqn:Hskip.
  - replace (skipn (S i) tasks) with (@nil Task); [constructor|].
    symmetry. change (S i) with (1 + i)%nat.
    rewrite <- skipn_skipn, Hskip. reflexivity.
  - replace (skipn (S i) tasks) with rest.
    + change (t :: rest) with ([t] ++ rest)%list in Hrest.
      rewrite capturedFormats_app in Hrest.
      apply Forall_app in Hrest. tauto.
    + change (S i) with (1 + i)%nat.
      rewrite <- skipn_skipn, Hskip. reflexivity.
Qed.

Lemma captured_of_task (tasks : list Task) (i : nat)
    (file : File) (format : string) :
  nth_error tasks i = Some (AwaitIsHeic file format) ->
  Forall (fun format => In format (values STANDARD_FORMATS))
         (capturedFormats tasks) ->
  In format (values STANDARD_FORMATS).
Proof.
  intros Hnth Hall.
  apply nth_error_split in Hnth. destruct Hnth as (l1 & l2 & -> & _).
  rewrite capturedFormats_app in Hall. apply Forall_app in Hall.
  destruct Hall as [_ Hall]. simpl in Hall.
  inversion Hall; assumption.
Qed.

Lemma captured_snoc (tasks : list Task) (t : Task) :
  Forall (fun format => In format (values STANDARD_FORMATS))
         (capturedFormats tasks) ->
  Forall (fun format => In format (values STANDARD_FORMATS))
         (capturedFormats [t]) ->
  Forall (fun format => In format (values STANDARD_FORMATS))
         (capturedFormats (tasks ++ [t])).
Proof.
  intros H1 H2. rewrite capturedFormats_app. apply Forall_app. now split.
Qed.

Lemma step_onMenu (w : World) (e : Event) :
  onMenu w -> fromMenu w e -> onMenu (step w e).
Proof.
  intros [Hsel Hcap] He.
  destruct w as [[q tf conv prev res name sel client heicFile]
                   libC libH libI urls tasks tr].
  unfold onMenu, fromMenu, formats in *.
  cbn [ui pending targetFormat isHeicFile] in *.
  assert (Hstd : In tf (values STANDARD_FORMATS)).
  { destruct heicFile; [apply heic_menu_in_standard|]; exact Hsel. }
  destruct e; unfold step; cbn [ui isClient convertedBlob pending].
  - split; assumption.
  - split; assumption.
  - split; assumption.
  - destruct client; [|split; assumption].
    destruct acceptedFiles as [|file others]; [split; assumption|].
    unfold exec, onDrop, bind, render, read. cbn -[values].
    destruct libI; cbn -[values]; (split; [assumption|]); [assumption|].
    apply captured_snoc; [assumption|].
    cbn [capturedFormats flat_map app]. constructor; [exact Hstd|constructor].
  - destruct client; [|split; assumption]. split; assumption.
  - destruct client; split; assumption.
  - destruct (client && negb _); [|split; assumption].
    unfold exec, handleConvert, bind, render, read. cbn -[values].
    destruct sel as [file|]; [|split; assumption]. cbn -[values].
    destruct (heicFile && loaded libH); cbn -[values].
    + split; [assumption|]. apply captured_snoc; [assumption|constructor].
    + destruct (loaded libC); cbn -[values]; (split; [assumption|]);
        [|assumption].
      apply captured_snoc; [assumption|constructor].
  - destruct (client && isSome res); [|split; assumption].
    unfold exec, handleDownload, bind, render. cbn -[values].
    destruct res; split; assumption.
  - destruct (nth_error tasks i) as [t|] eqn:Htask; [|split; assumption].
    pose proof (captured_after_take tasks i Hcap) as Htaken.
    destruct t, o; cbn -[values firstn skipn];
      try (split; assumption);
      try (split; [assumption|];
           first [ assumption
                 | apply captured_snoc; [assumption|constructor] ]).
    + pose proof (captured_of_task tasks i file capturedFormat Htask Hcap).
      destruct b; (split; [|assumption]); [simpl; auto | assumption].
    + destruct blob; unfold exec, bind, take; cbn -[values firstn skipn];
        split; assumption.
Qed.

(** Along a run in which format changes come from the menu, the selected
    format is always one of the options the menu shows. *)
Lemma targetFormat_on_menu (events : list Event) (w : World) :
  onMenu w -> menuRun w events -> onMenu (run w events).
Proof.
  revert w. induction events as [|e events IH]; intros w Hw Hrun; [exact Hw|].
  destruct Hrun as [He Hrun]. simpl. apply IH; [|exact Hrun].
  apply step_onMenu; assumption.
Qed.

Lemma initialWorld_onMenu : onMenu initialWorld.
Proof. split; [simpl; auto | constructor]. Qed.

(** * Further properties of the page *)

(** ** Invariants of the event loop *)

Lemma run_invariant (P : World -> Prop) :
  (forall w e, P w -> P (step w e)) ->
  forall events w, P w -> P (run w events).
Proof.
  intros Hstep events. induction events as [|e events IH]; intros w Hw.
  - exact Hw.
  - simpl. apply IH, Hstep, Hw.
Qed.

Lemma reachable_invariant (P : World -> Prop) :
  P initialWorld ->
  (forall w e, P w -> P (step w e)) ->
  forall w, reachable w -> P w.
Proof.
  intros Hinit Hstep w [events ->]. now apply run_invariant.
Qed.

Lemma reachable_run (w : World) (events : list Event) :
  reachable w -> reachable (run w events).
Proof.
  intros [before ->]. exists (before ++ events)%list.
  unfold run. now rewrite fold_left_app.
Qed.

(** Taking task [i] out of the list leaves what is before and after it. *)
Lemma take_split (tasks : list Task) (i : nat) (t : Task) :
  nth_error tasks i = Some t ->
  exists before after,
    tasks = (before ++ t :: after)%list /\
    (firstn i tasks ++ skipn (S i) tasks)%list = (before ++ after)%list.
Proof.
  intros Hnth. apply nth_error_split in Hnth.
  destruct Hnth as (before & after & -> & <-).
  exists before, after. split; [reflexivity|].
  clear. induction before as [|x before IH]; simpl; [reflexivity|].
  simpl in IH. now rewrite IH.
Qed.

(** What one settled task does to the world, spelled out. *)
Lemma step_settle (w : World) (i : nat) (o : Outcome) (t : Task) :
  nth_error (pending w) i = Some t ->
  step w (Settle i o) =
  match resume t o with
  | Some rest =>
      exec rest (mkWorld (ui w) (imageCompression w) (heicTo w) (isHeic w)
                   (objectUrls w)
                   (firstn i (pending w) ++ skipn (S i) (pending w))
                   (trace w))
  | None => w
  end.
Proof.
  intros Hnth. unfold step. rewrite Hnth.
  destruct (resume t o); reflexivity.
Qed.

Lemma preserves_ret {A : Type} (P : World -> Prop) (a : A) :
  preserves P (ret a).
Proof. intros w Hw. exact Hw. Qed.

Lemma preserves_bind {A B : Type} (P : World -> Prop)
    (c : M A) (k : A -> M B) :
  preserves P c -> (forall a, preserves P (k a)) -> preserves P (bind c k).
Proof. intros Hc Hk w Hw. unfold bind. apply Hk, Hc, Hw. Qed.

(** A computation that leaves the registry alone keeps what only the
    registry decides. *)
Lemma preserves_same_urls {A : Type} (c : M A) :
  (forall w, objectUrls (snd (c w)) = objectUrls w) -> preserves keyed c.
Proof. intros Hsame w Hw. unfold keyed. rewrite Hsame. exact Hw. Qed.

Lemma keyed_createObjectURL (blob : Blob) :
  preserves keyed (createObjectURL blob).
Proof.
  intros w Hw. unfold keyed in *. simpl.
  rewrite map_app, length_app, seq_app, Hw. reflexivity.
Qed.

Ltac keyed_tac :=
  repeat first
    [ apply preserves_bind; [|intros ?]
    | apply preserves_ret
    | apply keyed_createObjectURL
    | apply preserves_same_urls; intros ?; reflexivity
    | break_match ].

Lemma keyed_resume (t : Task) (o : Outcome) (rest : M unit) :
  resume t o = Some rest -> preserves keyed rest.
Proof.
  destruct t, o; simpl; intros H; try discriminate H;
    try (destruct blob; simpl in H);
    injection H as <-; keyed_tac.
Qed.

Lemma step_keyed (w : World) (e : Event) : keyed w -> keyed (step w e).
Proof.
  intros Hw. destruct e; unfold step, exec.
  - revert w Hw. keyed_tac.
  - revert w Hw. keyed_tac.
  - revert w Hw. keyed_tac.
  - destruct (isClient (ui w)); [|exact Hw].
    revert w Hw. unfold onDrop. keyed_tac.
  - destruct (isClient (ui w)); [|exact Hw]. revert w Hw. keyed_tac.
  - destruct (isClient (ui w)); [|exact Hw]. revert w Hw. keyed_tac.
  - destruct (isClient (ui w) && negb (convertDisabled (ui w))); [|exact Hw].
    revert w Hw. unfold handleConvert. keyed_tac.
  - destruct (isClient (ui w) && isSome (convertedBlob (ui w))); [|exact Hw].
    revert w Hw. unfold handleDownload. keyed_tac.
  - destruct (nth_error (pending w) i) as [t|]; [|exact Hw].
    destruct (resume t o) as [rest|] eqn:Hrest; [|exact Hw].
    revert w Hw. apply preserves_bind; [keyed_tac | intros _].
    exact (keyed_resume t o rest Hrest).
Qed.

Lemma reachable_keyed (w : World) : reachable w -> keyed w.
Proof.
  apply reachable_invariant; [reflexivity | exact step_keyed].
Qed.

Lemma keyed_lookup (urls : list (Url * Blob)) (url : Url) (a b : Blob) :
  map fst urls = seq 0 (length urls) ->
  In (url, a) urls -> In (url, b) urls -> a = b.
Proof.
  intros Hkeys Ha Hb.
  assert (Hnodup : NoDup (map fst urls)) by (rewrite Hkeys; apply seq_NoDup).
  clear Hkeys. induction urls as [|[u c] urls IH]; [contradiction|].
  simpl in Hnodup. inversion Hnodup as [|? ? Hfresh Hrest]; subst.
  destruct Ha as [Ha|Ha], Hb as [Hb|Hb].
  - congruence.
  - injection Ha as -> ->. exfalso. apply Hfresh.
    change url with (fst (url, b)). now apply in_map.
  - injection Hb as -> ->. exfalso. apply Hfresh.
    change url with (fst (url, a)). now apply in_map.
  - now apply IH.
Qed.

Ltac preview_tac :=
  unfold previewShows in *; cbn -[firstn skipn nth_error] in *;
  repeat match goal with
         | H : exists _, _ |- _ => destruct H as (? & ? & ?)
         | H : False |- _ => contradiction H
         | |- context [match ?x with _ => _ end] => destruct x eqn:?
         end;
  try discriminate;
  repeat match goal with
         | |- exists _, _ => eexists
         | |- _ /\ _ => split
         end;
  try solve [ eassumption | reflexivity | exact I
            | apply in_or_app; left; eassumption
            | apply in_or_app; right; left; reflexivity ].

Lemma step_previewShows (w : World) (e : Event) :
  previewShows w -> previewShows (step w e).
Proof.
  intros Hw.
  destruct w as [[q tf conv prev res name sel client heicFile]
                   libC libH libI urls tasks tr].
  destruct e; unfold step; cbn [ui isClient convertedBlob pending].
  - exact Hw.
  - exact Hw.
  - exact Hw.
  - destruct client; [|exact Hw].
    destruct acceptedFiles as [|file others]; [exact Hw|].
    destruct libI; exact Hw.
  - destruct client; exact Hw.
  - destruct client; exact Hw.
  - destruct (client && negb _); [|exact Hw].
    unfold exec, handleConvert, bind, render, read. cbn.
    destruct sel as [file|]; [|exact Hw]. cbn.
    destruct (heicFile && loaded libH); [exact I|].
    destruct (loaded libC); exact I.
  - destruct (client && isSome res); [|exact Hw].
    unfold exec, handleDownload, bind, render. cbn.
    destruct res; exact Hw.
  - destruct (nth_error tasks i) as [t|]; [|exact Hw].
    destruct t, o; try exact Hw; try (destruct blob); preview_tac.
Qed.

Lemma reachable_previewShows (w : World) : reachable w -> previewShows w.
Proof.
  apply reachable_invariant; [exact I | exact step_previewShows].
Qed.

(** Taking out a task of another kind leaves a task of the kind looked
    for in the list. *)
Lemma existsb_after_take (kind : Task -> bool) (tasks : list Task)
    (i : nat) (t : Task) :
  nth_error tasks i = Some t ->
  kind t = false ->
  existsb kind (firstn i tasks ++ skipn (S i) tasks) = existsb kind tasks.
Proof.
  intros Hnth Hkind.
  destruct (take_split tasks i t Hnth) as (before & after & -> & ->).
  rewrite !existsb_app. simpl. rewrite Hkind. reflexivity.
Qed.

Lemma existsb_of_task (kind : Task -> bool) (tasks : list Task)
    (i : nat) (t : Task) :
  nth_error tasks i = Some t -> kind t = true -> existsb kind tasks = true.
Proof.
  intros Hnth Hkind. apply existsb_exists. exists t.
  split; [exact (nth_error_In _ _ Hnth) | exact Hkind].
Qed.

Lemma existsb_snoc (kind : Task -> bool) (tasks : list Task) (t : Task) :
  existsb kind (tasks ++ [t]) = existsb kind tasks || kind t.
Proof. rewrite existsb_app. simpl. now rewrite orb_false_r. Qed.

Lemma step_flagMeansCall (w : World) (e : Event) :
  flagMeansCall w -> flagMeansCall (step w e).
Proof.
  intros Hw.
  destruct w as [[q tf conv prev res name sel client heicFile]
                   libC libH libI urls tasks tr].
  unfold flagMeansCall in *. cbn [ui isConverting pending] in Hw.
  destruct e; unfold step; cbn [ui isClient convertedBlob pending].
  - exact Hw.
  - exact Hw.
  - exact Hw.
  - destruct client; [|exact Hw].
    destruct acceptedFiles as [|file others]; [exact Hw|].
    destruct libI; cbn; [exact Hw|].
    intros Hflag. rewrite existsb_snoc, (Hw Hflag). reflexivity.
  - destruct client; exact Hw.
  - destruct client; exact Hw.
  - destruct (client && negb _); [|exact Hw].
    unfold exec, handleConvert, bind, render, read. cbn.
    destruct sel as [file|]; [|exact Hw]. cbn.
    destruct (heicFile && loaded libH); cbn.
    + intros _. rewrite existsb_snoc. apply orb_true_r.
    + destruct (loaded libC); cbn; [|discriminate].
      intros _. rewrite existsb_snoc. apply orb_true_r.
  - destruct (client && isSome res); [|exact Hw].
    unfold exec, handleDownload, bind, render. cbn.
    destruct res; exact Hw.
  - destruct (nth_error tasks i) as [t|] eqn:Htask; [|exact Hw].
    destruct t, o; try exact Hw; try (destruct blob);
      cbn -[firstn skipn existsb]; try discriminate; intros Hflag;
      try rewrite existsb_snoc;
      erewrite existsb_after_take by (try exact Htask; reflexivity);
      rewrite (Hw Hflag); reflexivity.
Qed.

Lemma reachable_flagMeansCall (w : World) : reachable w -> flagMeansCall w.
Proof.
  apply reachable_invariant; [discriminate | exact step_flagMeansCall].
Qed.

Lemma step_heicLoadedWhenUsed (w : World) (e : Event) :
  heicLoadedWhenUsed w -> heicLoadedWhenUsed (step w e).
Proof.
  intros [Hsame Hused].
  destruct w as [[q tf conv prev res name sel client heicFile]
                   libC libH libI urls tasks tr].
  unfold heicLoadedWhenUsed in *.
  cbn [ui isHeicFile pending heicTo isHeic] in *. subst libI.
  destruct e; unfold step; cbn [ui isClient convertedBlob pending].
  - split; [reflexivity | exact Hused].
  - split; [reflexivity | exact Hused].
  - split; reflexivity.
  - destruct client; [|split; [reflexivity | exact Hused]].
    destruct acceptedFiles as [|file others];
      [split; [reflexivity | exact Hused]|].
    destruct libH; cbn; split; try reflexivity; exact Hused.
  - destruct client; split; try reflexivity; exact Hused.
  - destruct client; split; try reflexivity; exact Hused.
  - destruct (client && negb _); [|split; [reflexivity | exact Hused]].
    unfold exec, handleConvert, bind, render, read. cbn.
    destruct sel as [file|]; [|split; [reflexivity | exact Hused]]. cbn.
    destruct (heicFile && loaded libH); cbn.
    + split; [reflexivity|]. rewrite existsb_snoc, orb_false_r. exact Hused.
    + destruct (loaded libC); cbn; (split; [reflexivity|]);
        [rewrite existsb_snoc, orb_false_r|]; exact Hused.
  - destruct (client && isSome res); [|split; [reflexivity | exact Hused]].
    unfold exec, handleDownload, bind, render. cbn.
    destruct res; split; try reflexivity; exact Hused.
  - destruct (nth_error tasks i) as [t|] eqn:Htask;
      [|split; [reflexivity | exact Hused]].
    assert (Hkeep : forall kindFalse : isClassification t = false,
               existsb isClassification
                 (firstn i tasks ++ skipn (S i) tasks) = true ->
               existsb isClassification tasks = true).
    { intros Hkind H.
      now rewrite (existsb_after_take _ _ _ _ Htask Hkind) in H. }
    destruct t, o; try (split; [reflexivity | exact Hused]);
      try (destruct blob);
      cbn -[firstn skipn existsb]; (split; [reflexivity|]);
      try rewrite existsb_snoc, orb_false_r;
      try (intros [H|H]; apply Hused;
           [left; exact H | right; apply Hkeep; [reflexivity | exact H]]).
    + intros _. apply Hused. right.
      exact (existsb_of_task _ _ _ _ Htask eq_refl).
    + intros _. apply Hused. right.
      exact (existsb_of_task _ _ _ _ Htask eq_refl).
Qed.

Lemma reachable_heicLoadedWhenUsed (w : World) :
  reachable w -> heicLoadedWhenUsed w.
Proof.
  apply reachable_invariant; [|exact step_heicLoadedWhenUsed].
  split; [reflexivity|]. simpl. intros [H|H]; discriminate H.
Qed.

(** ** What holds in every world the page can reach *)

Lemma menu_extension (s : State) :
  In (targetFormat s) (values STANDARD_FORMATS) ->
  exists sub, extension s = Some sub /\ targetFormat s = "image/" ++ sub
              /\ sub <> "" /\ JS.count "/" sub = O /\ JS.count "." sub = O.
Proof.
  unfold extension. intros Hin. simpl in Hin. in_cases Hin; rewrite Hin;
    eexists; (split; [reflexivity|]); (split; [reflexivity|]);
    (split; [discriminate|]); split; reflexivity.
Qed.

(** Driven from the menu, the selected format is always an option of the
    menu the page shows for the selected file, and the extension a download
    would use is that option's subtype, never [undefined]. *)
Theorem selected_format_on_menu_shown (events : list Event) :
  menuRun initialWorld events ->
  let w := run initialWorld events in
  In (targetFormat (ui w)) (values (formats (ui w))) /\
  exists sub, extension (ui w) = Some sub /\
              targetFormat (ui w) = "image/" ++ sub /\ sub <> "".
Proof.
  intros Hrun w.
  destruct (targetFormat_on_menu events initialWorld
              initialWorld_onMenu Hrun) as [Hsel _].
  split; [exact Hsel|].
  destruct (menu_extension (ui w) (menu_in_standard _ _ Hsel))
    as (sub & Hext & Hformat & Hsub & _).
  exists sub. repeat split; assumption.
Qed.

Lemma selected_format_on_menu_shown_witness :
  let w := run initialWorld
             [Mounted; Imported_heicTo; ChangeFormat "image/webp";
              Drop [photo_heic]; Settle 0 (ResolvedBool true)] in
  In (targetFormat (ui w)) (values HEIC_FORMATS).
Proof.
  intros w.
  pose proof (selected_format_on_menu_shown
                [Mounted; Imported_heicTo; ChangeFormat "image/webp";
                 Drop [photo_heic]; Settle 0 (ResolvedBool true)]) as H.
  assert (Hrun : menuRun initialWorld
                   [Mounted; Imported_heicTo; ChangeFormat "image/webp";
                    Drop [photo_heic]; Settle 0 (ResolvedBool true)]).
  { vm_compute. repeat split. auto 10. }
  exact (proj1 (H Hrun)).
Defined.

(** In every reachable world the preview URL is live and stands for exactly
    one blob: the result when there is one, otherwise the selected file; and
    a result always has its preview. *)
Theorem preview_shows_result_or_selected_file (w : World) :
  reachable w ->
  (forall url, previewUrl (ui w) = Some url ->
     exists blob,
       In (url, blob) (objectUrls w) /\
       (forall other, In (url, other) (objectUrls w) -> other = blob) /\
       match convertedBlob (ui w) with
       | Some result => blob = result
       | None => exists file, selectedFile (ui w) = Some file /\
                              blob = file_blob file
       end) /\
  (forall result, convertedBlob (ui w) = Some result ->
     exists url, previewUrl (ui w) = Some url).
Proof.
  intros Hreach.
  pose proof (reachable_previewShows w Hreach) as Hshow.
  pose proof (reachable_keyed w Hreach) as Hkeys.
  unfold previewShows, keyed in *.
  split.
  - intros url Hurl. rewrite Hurl in Hshow.
    destruct (convertedBlob (ui w)) as [result|].
    + exists result. split; [exact Hshow|]. split; [|reflexivity].
      intros other Hother. exact (keyed_lookup _ _ _ _ Hkeys Hother Hshow).
    + destruct Hshow as (file & Hfile & Hin).
      exists (file_blob file). split; [exact Hin|]. split.
      * intros other Hother. exact (keyed_lookup _ _ _ _ Hkeys Hother Hin).
      * exists file. split; [exact Hfile | reflexivity].
  - intros result Hresult. rewrite Hresult in Hshow.
    destruct (previewUrl (ui w)) as [url|]; [now exists url | contradiction].
Qed.

Lemma ready_reachable : reachable ready.
Proof. eexists. reflexivity. Qed.

Lemma preview_shows_result_or_selected_file_witness :
  exists url, previewUrl (ui heicConverted) = Some url /\
              In (url, jpeg) (objectUrls heicConverted).
Proof.
  assert (Hreach : reachable heicConverted).
  { apply (reachable_run ready), ready_reachable. }
  destruct (preview_shows_result_or_selected_file heicConverted Hreach)
    as [Hpreview _].
  destruct (Hpreview 1%nat eq_refl) as (blob & Hin & _ & Hblob).
  exists 1%nat. split; [reflexivity|].
  vm_compute in Hblob. rewrite Hblob in Hin. exact Hin.
Defined.

(** In every reachable world the flag is up only while a call of
    [handleConvert] to [heicTo] or [imageCompression] is outstanding; so
    once nothing is pending the convert button is disabled exactly when no
    file is selected. *)
Theorem flag_up_only_during_library_call (w : World) :
  reachable w ->
  (isConverting (ui w) = true ->
   exists t, In t (pending w) /\ isLibraryCall t = true) /\
  (pending w = [] ->
   convertDisabled (ui w) = negb (isSome (selectedFile (ui w)))).
Proof.
  intros Hreach. pose proof (reachable_flagMeansCall w Hreach) as Hflag.
  unfold flagMeansCall in Hflag. split.
  - intros Hup. apply existsb_exists. exact (Hflag Hup).
  - intros Hnone. unfold convertDisabled.
    destruct (selectedFile (ui w)); [|reflexivity]. simpl.
    destruct (isConverting (ui w)); [|reflexivity].
    specialize (Hflag eq_refl). rewrite Hnone in Hflag. discriminate Hflag.
Qed.

Lemma flag_up_only_during_library_call_witness :
  let w := run pngSelected [ClickConvert] in
  exists t, In t (pending w) /\ isLibraryCall t = true.
Proof.
  intros w.
  assert (Hreach : reachable w).
  { apply reachable_run, reachable_run, ready_reachable. }
  exact (proj1 (flag_up_only_during_library_call w Hreach) eq_refl).
Defined.

(** In every reachable world a file classified as HEIC is converted by
    [heicTo], called with the file, the selected format and
    [quality / 100]; the re-compression library is not called for it. *)
Theorem heic_file_goes_to_heicTo (w : World) (file : File) :
  reachable w ->
  selectedFile (ui w) = Some file ->
  isHeicFile (ui w) = true ->
  let options := mkHeicToOptions file (targetFormat (ui w))
                   (fraction (quality (ui w))) in
  let w' := exec handleConvert w in
  trace w' = (trace w ++ [call_heicTo options])%list /\
  pending w' = (pending w ++ [AwaitHeicTo options])%list /\
  compressions (trace w') = compressions (trace w) /\
  isConverting (ui w') = true.
Proof.
  intros Hreach Hfile Hheic options w'.
  destruct (reachable_heicLoadedWhenUsed w Hreach) as [_ Hused].
  specialize (Hused (or_introl Hheic)).
  subst options w'. clear Hreach.
  destruct w as [[q tf conv prev res name sel client heicFile]
                   libC libH libI urls tasks tr].
  cbn [ui heicTo selectedFile isHeicFile] in *. subst.
  cbn. repeat split.
  unfold compressions. rewrite filter_app. cbn. now rewrite app_nil_r.
Qed.

Lemma heicSelected_reachable : reachable heicSelected.
Proof. apply reachable_run, ready_reachable. Qed.

Lemma heic_file_goes_to_heicTo_witness :
  trace (exec handleConvert heicSelected) =
  [call_isHeic photo_heic;
   call_heicTo (mkHeicToOptions photo_heic "image/jpeg" (80 # 100))].
Proof.
  pose proof (heic_file_goes_to_heicTo heicSelected photo_heic
                heicSelected_reachable eq_refl eq_refl) as H.
  vm_compute in H. vm_compute. exact (proj1 H).
Defined.

(** ** A conversion from click to settlement *)

(** A conversion on the HEIC path that succeeds: the blob [heicTo]
    resolves with becomes the result, a fresh URL for that very blob becomes
    the preview, the flag is reset, and file, name, format and quality are
    as they were. *)
Theorem heic_conversion_succeeds (w : World) (file : File) (blob : Blob) :
  isClient (ui w) = true ->
  selectedFile (ui w) = Some file ->
  isConverting (ui w) = false ->
  isHeicFile (ui w) = true ->
  heicTo w = Loaded ->
  let w' := run w [ClickConvert;
                   Settle (length (pending w)) (ResolvedBlob blob)] in
  convertedBlob (ui w') = Some blob /\
  previewUrl (ui w') = Some (length (objectUrls w)) /\
  objectUrls w' = (objectUrls w ++ [(length (objectUrls w), blob)])%list /\
  isConverting (ui w') = false /\
  selectedFile (ui w') = Some file /\
  originalFileName (ui w') = originalFileName (ui w) /\
  targetFormat (ui w') = targetFormat (ui w) /\
  quality (ui w') = quality (ui w) /\
  pending w' = pending w /\
  trace w' =
    (trace w ++ [call_heicTo (mkHeicToOptions file (targetFormat (ui w))
                                (fraction (quality (ui w))))])%list.
Proof.
  intros Hclient Hfile Hconv Hheic Hlib w'. subst w'.
  rewrite (convert_then_heicTo_resolved w file blob
             Hclient Hfile Hconv Hheic Hlib).
  repeat split.
Qed.

Lemma heic_conversion_succeeds_witness :
  convertedBlob (ui (run heicSelected
                       [ClickConvert; Settle 0 (ResolvedBlob jpeg)])) =
  Some jpeg.
Proof.
  pose proof (heic_conversion_succeeds heicSelected photo_heic jpeg) as H.
  vm_compute in H. vm_compute.
  exact (proj1 (H eq_refl eq_refl eq_refl eq_refl eq_refl)).
Defined.

(** A conversion whose library call is rejected, on either path: the
    rejection is caught and logged once, the flag is reset, preview and
    result are absent, and everything else is as before the click. *)
Theorem rejected_conversion_returns_to_file_selected
    (w : World) (file : File) (error : string) :
  isClient (ui w) = true ->
  selectedFile (ui w) = Some file ->
  isConverting (ui w) = false ->
  (isHeicFile (ui w) = true /\ heicTo w = Loaded) \/
  (isHeicFile (ui w) = false /\ imageCompression w = Loaded) ->
  let call :=
    if isHeicFile (ui w)
    then call_heicTo (mkHeicToOptions file (targetFormat (ui w))
                        (fraction (quality (ui w))))
    else call_imageCompression file (mkCompressionOptions 1 1920 true) in
  run w [ClickConvert; Settle (length (pending w)) (Rejected error)] =
  exec (setPreviewUrl None ;; setConvertedBlob None ;; emit call ;;
        emit (console_error "Dönüştürme hatası:" error)) w.
Proof.
  intros Hclient Hfile Hconv Hpath call. subst call.
  destruct w as [[q tf conv prev res name sel client heicFile]
                   libC libH libI urls tasks tr].
  cbn [ui heicTo imageCompression pending isClient selectedFile isConverting
       isHeicFile] in *.
  subst. unfold run. cbn [fold_left].
  destruct Hpath as [[-> ->]|[-> ->]].
  - set (options := mkHeicToOptions file tf (fraction q)).
    assert (Hclick :
      step (mkWorld (mkState q tf false prev res name (Some file) true true)
              libC Loaded libI urls tasks tr) ClickConvert =
      mkWorld (mkState q tf true None None name (Some file) true true)
        libC Loaded libI urls (tasks ++ [AwaitHeicTo options])
        (tr ++ [call_heicTo options])) by reflexivity.
    rewrite Hclick. erewrite settle_last by reflexivity. reflexivity.
  - set (options := mkCompressionOptions 1 1920 true).
    assert (Hclick :
      step (mkWorld (mkState q tf false prev res name (Some file) true false)
              Loaded libH libI urls tasks tr) ClickConvert =
      mkWorld (mkState q tf true None None name (Some file) true false)
        Loaded libH libI urls (tasks ++ [AwaitImageCompression file tf q])
        (tr ++ [call_imageCompression file options])) by reflexivity.
    rewrite Hclick. erewrite settle_last by reflexivity. reflexivity.
Qed.

Lemma rejected_conversion_returns_to_file_selected_witness :
  let w' := run pngSelected [ClickConvert; Settle 0 (Rejected "quota")] in
  w' = exec (setPreviewUrl None ;; setConvertedBlob None ;;
             emit (call_imageCompression photo_png
                     (mkCompressionOptions 1 1920 true)) ;;
             emit (console_error "Dönüştürme hatası:" "quota"))
         pngSelected.
Proof.
  pose proof (rejected_conversion_returns_to_file_selected
                pngSelected photo_png "quota" eq_refl eq_refl eq_refl
                (or_intror (conj eq_refl eq_refl))) as H.
  vm_compute in H. vm_compute. exact H.
Defined.

(** ** Dropping files *)

(** A drop that does not lead to a classification changes nothing the page
    shows: an empty drop does nothing at all; a drop before [heic-to] has
    been imported only logs an error; a drop whose classification is
    rejected only logs the call and the error.  The file, its name, the
    format, the result and the preview all stay as they were. *)
Theorem failed_drop_leaves_state
    (w : World) (file : File) (others : list File) (error : string) :
  isClient (ui w) = true ->
  step w (Drop []) = w /\
  (isHeic w = Null ->
   step w (Drop (file :: others)) =
   exec (emit (console_error "Dosya kontrolü sırasında hata:"
                 "HEIC kontrol fonksiyonu yüklenemedi")) w) /\
  (isHeic w = Loaded ->
   run w [Drop (file :: others);
          Settle (length (pending w)) (Rejected error)] =
   exec (emit (call_isHeic file) ;;
         emit (console_error "Dosya kontrolü sırasında hata:" error)) w).
Proof.
  intros Hclient.
  destruct w as [s libC libH libI urls tasks tr].
  cbn [ui isHeic pending] in *.
  split; [|split].
  - unfold step. cbn [ui]. rewrite Hclient. reflexivity.
  - intros ->. unfold step. cbn [ui]. rewrite Hclient. reflexivity.
  - intros ->. unfold run. cbn [fold_left].
    assert (Hdrop :
      step (mkWorld s libC libH Loaded urls tasks tr) (Drop (file :: others)) =
      mkWorld s libC libH Loaded urls
        (tasks ++ [AwaitIsHeic file (targetFormat s)])
        (tr ++ [call_isHeic file])).
    { unfold step. cbn [ui]. rewrite Hclient. reflexivity. }
    rewrite Hdrop. erewrite settle_last by reflexivity. reflexivity.
Qed.

Lemma failed_drop_leaves_state_witness :
  let w := run heicConverted [Drop [photo_png]; Settle 0 (Rejected "busy")] in
  ui w = ui heicConverted /\
  errors (trace w) = [console_error "Dosya kontrolü sırasında hata:" "busy"].
Proof.
  pose proof (failed_drop_leaves_state heicConverted photo_png [] "busy"
                eq_refl) as (_ & _ & H).
  specialize (H eq_refl). vm_compute in H. vm_compute.
  split; [exact (f_equal ui H) | exact (f_equal (fun w => errors (trace w)) H)].
Defined.

Lemma forallb_after_take (kind : Task -> bool) (tasks : list Task)
    (i : nat) (t : Task) :
  nth_error tasks i = Some t ->
  forallb kind tasks = true ->
  kind t = true /\
  forallb kind (firstn i tasks ++ skipn (S i) tasks) = true.
Proof.
  intros Hnth Hall.
  destruct (take_split tasks i t Hnth) as (before & after & -> & ->).
  rewrite forallb_app in *. simpl in Hall.
  apply andb_prop in Hall. destruct Hall as [Hbefore Hrest].
  apply andb_prop in Hrest. destruct Hrest as [Ht Hafter].
  split; [exact Ht|]. now rewrite Hbefore, Hafter.
Qed.

Lemma step_fileAndName (w : World) (e : Event) :
  fileAndName w -> fileAndName (step w e).
Proof.
  intros Hw.
  destruct w as [[q tf conv prev res name sel client heicFile]
                   libC libH libI urls tasks tr].
  unfold fileAndName in *.
  cbn [ui selectedFile originalFileName convertedBlob previewUrl isConverting
       isHeicFile pending] in Hw.
  destruct e; unfold step; cbn [ui isClient convertedBlob pending].
  - exact Hw.
  - exact Hw.
  - exact Hw.
  - destruct client; [|exact Hw].
    destruct acceptedFiles as [|file others]; [exact Hw|].
    destruct libI; cbn; [exact Hw|].
    destruct sel; [exact Hw|].
    destruct Hw as (? & ? & ? & ? & ? & Hall). repeat split; try assumption.
    rewrite forallb_app, Hall. reflexivity.
  - destruct client; exact Hw.
  - destruct client; exact Hw.
  - unfold convertDisabled. cbn.
    destruct sel as [file|]; [|rewrite andb_false_r; exact Hw].
    destruct (client && negb conv); [|exact Hw].
    unfold exec, handleConvert, bind, render, read. cbn.
    destruct (heicFile && loaded libH); cbn; [exact Hw|].
    destruct (loaded libC); exact Hw.
  - destruct (client && isSome res); [|exact Hw].
    unfold exec, handleDownload, bind, render. cbn.
    destruct res; exact Hw.
  - destruct (nth_error tasks i) as [t|] eqn:Htask; [|exact Hw].
    destruct sel as [selected|].
    + destruct t, o; try exact Hw; try (destruct blob); cbn; try exact Hw;
        reflexivity.
    + destruct Hw as (Hname & Hres & Hprev & Hconv & Hheic & Hall).
      destruct (forallb_after_take _ _ _ _ Htask Hall) as [Hkind Htaken].
      destruct t; try discriminate Hkind.
      destruct o; cbn -[firstn skipn forallb];
        repeat split; try assumption; reflexivity.
Qed.

Lemma reachable_fileAndName (w : World) : reachable w -> fileAndName w.
Proof.
  apply reachable_invariant; [|exact step_fileAndName].
  repeat split.
Qed.

(** In every reachable world the name kept for the download is the name of
    the selected file, and while no file is selected there is no result, no
    preview and no conversion, and the convert button is disabled. *)
Theorem name_belongs_to_selected_file (w : World) :
  reachable w ->
  (forall file, selectedFile (ui w) = Some file ->
                originalFileName (ui w) = file_name file) /\
  (selectedFile (ui w) = None ->
   originalFileName (ui w) = "" /\ convertedBlob (ui w) = None /\
   previewUrl (ui w) = None /\ isConverting (ui w) = false /\
   step w ClickConvert = w /\ step w ClickDownload = w).
Proof.
  intros Hreach. pose proof (reachable_fileAndName w Hreach) as Hw.
  unfold fileAndName in Hw. split.
  - intros file Hfile. rewrite Hfile in Hw. exact Hw.
  - intros Hnone. rewrite Hnone in Hw.
    destruct Hw as (Hname & Hres & Hprev & Hconv & _).
    repeat split; try assumption.
    + unfold step, convertDisabled. rewrite Hnone, andb_false_r. reflexivity.
    + unfold step. rewrite Hres, andb_false_r. reflexivity.
Qed.

Lemma name_belongs_to_selected_file_witness :
  originalFileName (ui raced) = file_name photo_png.
Proof.
  assert (Hreach : reachable raced).
  { do 4 apply reachable_run. exact ready_reachable. }
  exact (proj1 (name_belongs_to_selected_file raced Hreach)
           photo_png eq_refl).
Defined.

(** ** Downloading again, and the name cut *)

(** Downloading consumes nothing: [n] clicks on the download button save
    the same blob under the same name [n] times and leave the state, the
    pending calls and the live URLs as they were. *)
Theorem download_repeats (w : World) (blob : Blob) (n : nat) :
  isClient (ui w) = true ->
  convertedBlob (ui w) = Some blob ->
  let w' := run w (clicks ClickDownload n) in
  ui w' = ui w /\
  pending w' = pending w /\
  objectUrls w' = objectUrls w /\
  trace w' = (trace w ++ repeat (saveAs blob (fileName (ui w))) n)%list.
Proof.
  intros Hclient Hblob. revert w Hclient Hblob.
  induction n as [|n IH]; intros w Hclient Hblob w'; subst w'.
  - simpl. rewrite app_nil_r. repeat split.
  - assert (Hstep : step w ClickDownload =
                    exec (emit (saveAs blob (fileName (ui w)))) w).
    { unfold step. rewrite Hclient, Hblob.
      exact (handleDownload_saves w blob Hblob). }
    change (run w (clicks ClickDownload (S n)))
      with (run (step w ClickDownload) (clicks ClickDownload n)).
    rewrite Hstep.
    destruct (IH (exec (emit (saveAs blob (fileName (ui w)))) w)
                Hclient Hblob) as (Hui & Hpending & Hurls & Htrace).
    rewrite Hui, Hpending, Hurls, Htrace. repeat split.
    cbn [exec emit snd ui trace repeat]. now rewrite <- app_assoc.
Qed.

Lemma download_repeats_witness :
  trace (run heicConverted [ClickDownload; ClickDownload]) =
  (trace heicConverted
     ++ [saveAs jpeg "photo.jpeg"; saveAs jpeg "photo.jpeg"])%list.
Proof.
  pose proof (download_repeats heicConverted jpeg 2 eq_refl eq_refl) as H.
  vm_compute in H. vm_compute. exact (proj2 (proj2 (proj2 H))).
Defined.

Lemma split_first_prefix (sep : ascii) (s : string) :
  exists base rest,
    s = base ++ rest /\
    JS.count sep base = O /\
    (rest = "" \/ exists tail, rest = String sep tail) /\
    JS.index (JS.split sep s) 0 = Some base.
Proof.
  induction s as [|c s IH].
  - exists "", "". repeat split. now left.
  - simpl. destruct (Ascii.eqb c sep) eqn:Hc.
    + apply Ascii.eqb_eq in Hc. subst c.
      exists "", (String sep s). repeat split. right. now exists s.
    + destruct IH as (base & rest & Hs & Hcount & Hrest & Hfirst).
      exists (String c base), rest. simpl. rewrite Hc.
      repeat split; [now rewrite <- Hs | exact Hcount | exact Hrest |].
      destruct (JS.split sep s) as [|piece pieces]; simpl in *;
        [discriminate | congruence].
Qed.

(** Whatever the original name, the download's base is the name up to its
    first dot: the name is that base followed by nothing or by a dot and
    more, the base holds no dot, and the saved name is the base, a dot and
    the extension. *)
Theorem download_name_cut_at_first_dot (w : World) (blob : Blob) :
  convertedBlob (ui w) = Some blob ->
  JS.truthy (originalFileName (ui w)) = true ->
  exists base rest,
    originalFileName (ui w) = base ++ rest /\
    JS.count "." base = O /\
    (rest = "" \/ exists tail, rest = String "." tail) /\
    exec handleDownload w =
    exec (emit (saveAs blob
                  (base ++ "." ++ JS.template (extension (ui w))))) w.
Proof.
  intros Hblob Hname.
  destruct (split_first_prefix "." (originalFileName (ui w)))
    as (base & rest & Hsplit & Hcount & Hrest & Hfirst).
  exists base, rest. repeat split; try assumption.
  rewrite (handleDownload_saves w blob Hblob).
  unfold fileName. rewrite Hname, Hfirst. reflexivity.
Qed.

Lemma download_name_cut_at_first_dot_witness :
  exists base rest,
    originalFileName (ui holidayConverted) = base ++ rest /\
    JS.count "." base = O /\
    (rest = "" \/ exists tail, rest = String "." tail) /\
    exec handleDownload holidayConverted =
    exec (emit (saveAs jpeg
                  (base ++ "." ++
                   JS.template (extension (ui holidayConverted)))))
      holidayConverted.
Proof.
  exact (download_name_cut_at_first_dot holidayConverted jpeg
           eq_refl eq_refl).
Defined.

(** ** [split] *)

Lemma join_cons (sep : ascii) (piece : string) (pieces : list string) :
  pieces <> [] ->
  join sep (piece :: pieces) = piece ++ String sep (join sep pieces).
Proof. destruct pieces; [congruence | reflexivity]. Qed.

(** [split] loses nothing: joining the pieces with the separator gives the
    string back, there is one piece more than there are separators, and no
    piece holds a separator. *)
Theorem split_join (sep : ascii) (s : string) :
  join sep (JS.split sep s) = s /\
  length (JS.split sep s) = S (JS.count sep s) /\
  Forall (fun piece => JS.count sep piece = O) (JS.split sep s).
Proof.
  induction s as [|c s (Hjoin & Hlength & Hpieces)]; simpl.
  - repeat split. repeat constructor.
  - destruct (Ascii.eqb c sep) eqn:Hc.
    + apply Ascii.eqb_eq in Hc. subst c. split; [|split].
      * rewrite join_cons by apply split_not_nil. now rewrite Hjoin.
      * simpl. now rewrite Hlength.
      * constructor; [reflexivity | exact Hpieces].
    + destruct (JS.split sep s) as [|piece pieces] eqn:Hsplit.
      * exfalso. exact (split_not_nil sep s Hsplit).
      * split; [|split].
        -- rewrite <- Hjoin. destruct pieces; reflexivity.
        -- simpl in *. exact Hlength.
        -- inversion Hpieces; subst. constructor; [|assumption].
           simpl. rewrite Hc. assumption.
Qed.

(** ** Settings during a conversion *)

(** The generic path converts with the settings of the click: whatever the
    format menu and the quality slider are moved to while the re-compression
    and the image load are outstanding, [toBlob] is asked for the format and
    [quality / 100] selected when the button was clicked. *)
Theorem conversion_uses_settings_of_click
    (w : World) (file compressedFile : File) (width height : Z)
    (during1 during2 : list Event) :
  isClient (ui w) = true ->
  selectedFile (ui w) = Some file ->
  isConverting (ui w) = false ->
  isHeicFile (ui w) = false ->
  imageCompression w = Loaded ->
  forallb isSetting during1 = true ->
  forallb isSetting during2 = true ->
  let n := length (pending w) in
  let src := length (objectUrls w) in
  let w' := run w (ClickConvert :: during1
                     ++ Settle n (ResolvedFile compressedFile) :: during2
                     ++ [Settle n (ImageLoaded width height)]) in
  trace w' =
    (trace w ++
     [call_imageCompression file (mkCompressionOptions 1 1920 true);
      set_img_src src;
      call_toBlob (mkCanvas width height (Some src))
        (targetFormat (ui w)) (fraction (quality (ui w)))])%list /\
  pending w' =
    (pending w ++
     [AwaitToBlob (mkCanvas width height (Some src))
        (targetFormat (ui w)) (fraction (quality (ui w)))])%list.
Proof.
  intros Hclient Hfile Hconv Hheic Hlib Hduring1 Hduring2 n src w'.
  subst n src w'.
  destruct w as [[q tf conv prev res name sel client heicFile]
                   libC libH libI urls tasks tr].
  cbn [ui imageCompression pending objectUrls trace isClient selectedFile
       isConverting isHeicFile targetFormat quality] in *.
  subst.
  change (run ?w (ClickConvert :: ?rest)) with (run (step w ClickConvert) rest).
  assert (Hclick :
    step (mkWorld (mkState q tf false prev res name (Some file) true false)
            Loaded libH libI urls tasks tr) ClickConvert =
    mkWorld (mkState q tf true None None name (Some file) true false)
      Loaded libH libI urls (tasks ++ [AwaitImageCompression file tf q])
      (tr ++ [call_imageCompression file (mkCompressionOptions 1 1920 true)]))
    by reflexivity.
  rewrite Hclick. unfold run. rewrite fold_left_app.
  fold (run (mkWorld (mkState q tf true None None name (Some file) true false)
               Loaded libH libI urls
               (tasks ++ [AwaitImageCompression file tf q])
               (tr ++ [call_imageCompression file
                         (mkCompressionOptions 1 1920 true)])) during1).
  destruct (run_settings during1 Hduring1 q tf true None None name
              (Some file) true false Loaded libH libI urls
              (tasks ++ [AwaitImageCompression file tf q])
              (tr ++ [call_imageCompression file
                        (mkCompressionOptions 1 1920 true)]))
    as (q1 & tf1 & ->).
  cbn [fold_left]. erewrite settle_last by reflexivity.
  rewrite fold_left_app.
  match goal with
  | |- context [fold_left step during2 ?w0] =>
      change (fold_left step during2 w0) with (run w0 during2);
      let w1 := eval cbn in w0 in change w0 with w1
  end.
  match goal with
  | |- context [run (mkWorld (mkState ?a ?b ?c ?d ?e ?f ?g ?h ?i)
                       ?j ?k ?l ?m ?o ?p) during2] =>
      destruct (run_settings during2 Hduring2 a b c d e f g h i j k l m o p)
        as (q2 & tf2 & ->)
  end.
  cbn [fold_left]. erewrite settle_last by reflexivity.
  cbn. rewrite <- !app_assoc. split; reflexivity.
Qed.

Lemma conversion_uses_settings_of_click_witness :
  trace (run pngSelected
           [ClickConvert; ChangeFormat "image/webp"; ChangeQuality 10;
            Settle 0 (ResolvedFile compressed_png); ChangeFormat "image/png";
            Settle 0 (ImageLoaded 640 480)]) =
  [call_isHeic photo_png;
   call_imageCompression photo_png (mkCompressionOptions 1 1920 true);
   set_img_src 1%nat;
   call_toBlob (mkCanvas 640 480 (Some 1%nat)) "image/jpeg" (80 # 100)].
Proof.
  pose proof (conversion_uses_settings_of_click pngSelected photo_png
                compressed_png 640 480
                [ChangeFormat "image/webp"; ChangeQuality 10]
                [ChangeFormat "image/png"]
                eq_refl eq_refl eq_refl eq_refl eq_refl eq_refl eq_refl) as H.
  vm_compute in H. vm_compute. exact (proj1 H).
Defined.

(** A conversion is not cancelled by the next file: when a file is
    accepted while an encoding is outstanding, the blob that encoding
    delivers still becomes the result and the preview, beside the newly
    selected file and under its name. *)
Theorem outstanding_encoding_survives_new_file
    (w : World) (i : nat) (canvas : Canvas) (type : string) (q : Q)
    (file : File) (others : list File) (fileIsHeic : bool) (blob : Blob) :
  isClient (ui w) = true ->
  isHeic w = Loaded ->
  nth_error (pending w) i = Some (AwaitToBlob canvas type q) ->
  let w' := run w [Drop (file :: others);
                   Settle (length (pending w)) (ResolvedBool fileIsHeic);
                   Settle i (Encoded (Some blob))] in
  selectedFile (ui w') = Some file /\
  originalFileName (ui w') = file_name file /\
  convertedBlob (ui w') = Some blob /\
  previewUrl (ui w') = Some (S (length (objectUrls w))) /\
  In (S (length (objectUrls w)), blob) (objectUrls w').
Proof.
  intros Hclient Hloaded Htask w'. subst w'.
  change (run w [?a; ?b; ?c]) with (step (run w [a; b]) c).
  rewrite (drop_then_classified w file others fileIsHeic Hclient Hloaded).
  erewrite step_settle by exact Htask.
  cbn -[firstn skipn]. rewrite length_app. cbn.
  replace (length (objectUrls w) + 1)%nat with (S (length (objectUrls w)))
    by lia.
  repeat split. apply in_or_app. right. left. reflexivity.
Qed.

Lemma outstanding_encoding_survives_new_file_witness :
  let w' := run pngEncoding [Drop [photo_heic]; Settle 1 (ResolvedBool true);
                             Settle 0 (Encoded (Some png))] in
  selectedFile (ui w') = Some photo_heic /\ convertedBlob (ui w') = Some png.
Proof.
  pose proof (outstanding_encoding_survives_new_file pngEncoding 0
                (mkCanvas 640 480 (Some 1%nat)) "image/jpeg" (fraction 80)
                photo_heic [] true png eq_refl eq_refl eq_refl) as H.
  vm_compute in H. vm_compute.
  destruct H as (Hfile & _ & Hblob & _). split; assumption.
Defined.

(** * Properties of the variant built on [heic2any] *)

Module Heic2anyFacts.

#[warnings="-notation-overridden"]
Import Heic2anyPage.

(** ** Names *)

Lemma toLowerCase_app (a b : string) :
  toLowerCase (a ++ b) = toLowerCase a ++ toLowerCase b.
Proof. induction a as [|c a IH]; simpl; [reflexivity | now rewrite IH]. Qed.

Lemma jpg_is_not_heic (stem : string) :
  endsWith (stem ++ ".jpg") ".heic" = false.
Proof.
  induction stem as [|c stem IH].
  - reflexivity.
  - cbn [append endsWith]. rewrite IH, orb_false_r.
    apply String.eqb_neq. intros Heq. injection Heq as _ Heq.
    repeat (destruct stem as [|? stem]; [discriminate Heq|];
            injection Heq as _ Heq).
    destruct stem; discriminate Heq.
Qed.

(** What the replacement does, read against the test of [onDrop]. *)
Lemma replace_heic_spec (name : string) :
  if endsWith (toLowerCase name) ".heic"
  then exists stem suffix,
         name = stem ++ suffix /\ toLowerCase suffix = ".heic" /\
         replace_heic name = stem ++ ".jpg"
  else replace_heic name = name.
Proof.
  induction name as [|c name IH].
  - reflexivity.
  - change (endsWith (toLowerCase (String c name)) ".heic")
      with (String.eqb (toLowerCase (String c name)) ".heic"
            || endsWith (toLowerCase name) ".heic").
    change (replace_heic (String c name))
      with (if String.eqb (toLowerCase (String c name)) ".heic" then ".jpg"
            else String c (replace_heic name)).
    destruct (String.eqb (toLowerCase (String c name)) ".heic") eqn:Hwhole.
    + cbn [orb]. exists "", (String c name).
      apply String.eqb_eq in Hwhole. repeat split. exact Hwhole.
    + cbn [orb]. destruct (endsWith (toLowerCase name) ".heic").
      * destruct IH as (stem & suffix & -> & Hsuffix & Hreplaced).
        exists (String c stem), suffix. repeat split; [exact Hsuffix|].
        cbn [append]. now rewrite Hreplaced.
      * now rewrite IH.
Qed.

Lemma replace_heic_not_heic (name : string) :
  endsWith (toLowerCase (replace_heic name)) ".heic" = false.
Proof.
  pose proof (replace_heic_spec name) as Hspec.
  destruct (endsWith (toLowerCase name) ".heic") eqn:Hends.
  - destruct Hspec as (stem & suffix & _ & _ & ->).
    rewrite toLowerCase_app. apply jpg_is_not_heic.
  - rewrite Hspec. exact Hends.
Qed.

(** The rename of [convertHeicToJpeg] agrees with the test of [onDrop]: a
    name the test takes for a HEIC, in whatever case its suffix is written,
    has that suffix replaced by [.jpg]; any other name is kept; and the
    outcome is never again a name the test takes for a HEIC. *)
Theorem heic_suffix_renamed (name : string) :
  (endsWith (toLowerCase name) ".heic" = true ->
   exists stem suffix,
     name = stem ++ suffix /\ toLowerCase suffix = ".heic" /\
     replace_heic name = stem ++ ".jpg") /\
  (endsWith (toLowerCase name) ".heic" = false -> replace_heic name = name) /\
  endsWith (toLowerCase (replace_heic name)) ".heic" = false.
Proof.
  pose proof (replace_heic_spec name) as Hspec.
  destruct (endsWith (toLowerCase name) ".heic") eqn:Hends.
  - split; [intros _; exact Hspec|]. split; [discriminate|].
    apply replace_heic_not_heic.
  - split; [discriminate|]. split; [intros _; exact Hspec|].
    apply replace_heic_not_heic.
Qed.

Lemma heic_suffix_renamed_witness :
  exists stem suffix,
    "IMG_0042.HEIC" = stem ++ suffix /\ toLowerCase suffix = ".heic" /\
    replace_heic "IMG_0042.HEIC" = stem ++ ".jpg".
Proof.
  exact (proj1 (heic_suffix_renamed "IMG_0042.HEIC") eq_refl).
Defined.

(** ** Dropping files *)

Lemma variant_settle_last
    (s : State) (libC libH : Handle) (urls : list (Url * Blob))
    (tasks : list Task) (tr : list Effect)
    (t : Task) (o : Outcome) (rest : M unit) :
  resume t o = Some rest ->
  step (mkWorld s libC libH urls (tasks ++ [t]) tr)
       (Settle (length tasks) o) =
  exec rest (mkWorld s libC libH urls tasks tr).
Proof.
  intros Hrest. unfold step. cbn [pending].
  rewrite nth_error_last, Hrest.
  unfold exec, bind, take. cbn -[firstn skipn].
  rewrite remove_last. reflexivity.
Qed.

(** A file that does not look like a HEIC is selected at once, with
    nothing left pending; a HEIC is handed to [heic2any] and, once that
    resolves, the selected file is a JPEG made of the first blob, named
    after the dropped file with its suffix replaced.  Either way the name,
    the preview and the cleared result belong to the file selected. *)
Theorem drop_selects_plain_or_converted
    (w : World) (file : File) (others : list File) (converted : Converted) :
  isClient (ui w) = true ->
  (looksHeic file = false ->
   step w (Drop (file :: others)) = exec (select file) w) /\
  (looksHeic file = true -> heic2any w = Loaded ->
   run w [Drop (file :: others);
          Settle (length (pending w)) (ResolvedConverted converted)] =
   exec (emit (call_heic2any file "image/jpeg" (8 # 10)) ;;
         select (newJpegFile (firstBlob converted)
                   (replace_heic (file_name file)))) w) /\
  (forall chosen,
     let w' := exec (select chosen) w in
     selectedFile (ui w') = Some chosen /\
     originalFileName (ui w') = file_name chosen /\
     convertedBlob (ui w') = None /\
     previewUrl (ui w') = Some (length (objectUrls w)) /\
     objectUrls w' =
       (objectUrls w ++ [(length (objectUrls w), file_blob chosen)])%list /\
     targetFormat (ui w') = targetFormat (ui w) /\
     pending w' = pending w).
Proof.
  intros Hclient.
  destruct w as [s libC libH urls tasks tr]. cbn [ui heic2any pending] in *.
  split; [|split].
  - intros Hplain. unfold step. cbn [ui]. rewrite Hclient.
    unfold onDrop. rewrite Hplain. reflexivity.
  - intros Hheic ->. unfold run. cbn [fold_left].
    assert (Hdrop :
      step (mkWorld s libC Loaded urls tasks tr) (Drop (file :: others)) =
      mkWorld s libC Loaded urls (tasks ++ [AwaitHeic2any file])
        (tr ++ [call_heic2any file "image/jpeg" (8 # 10)])).
    { unfold step. cbn [ui]. rewrite Hclient.
      unfold onDrop. rewrite Hheic. reflexivity. }
    rewrite Hdrop. erewrite variant_settle_last by reflexivity. reflexivity.
  - intros chosen. repeat split.
Qed.

Lemma drop_selects_plain_or_converted_witness :
  let w := run ready [Drop [IMG_0042];
                      Settle 0 (ResolvedConverted (Blobs [jpeg; png]))] in
  selectedFile (ui w) =
    Some (mkFile "IMG_0042.jpg" (mkBlob "image/jpeg" (blob_bytes jpeg))) /\
  originalFileName (ui w) = "IMG_0042.jpg".
Proof.
  destruct (drop_selects_plain_or_converted ready IMG_0042 []
              (Blobs [jpeg; png]) eq_refl) as (_ & H & _).
  specialize (H eq_refl eq_refl). vm_compute in H. vm_compute.
  split; [exact (f_equal (fun w => selectedFile (ui w)) H)
         | exact (f_equal (fun w => originalFileName (ui w)) H)].
Defined.

(** A HEIC that cannot be converted leaves the page as it was: dropped
    before [heic2any] is loaded it costs one logged error; rejected by
    [heic2any] it is logged twice, by [convertHeicToJpeg] and by [onDrop];
    state, live URLs and pending calls are untouched. *)
Theorem unconverted_heic_leaves_state
    (w : World) (file : File) (others : list File) (error : string) :
  isClient (ui w) = true ->
  looksHeic file = true ->
  (heic2any w = Null ->
   step w (Drop (file :: others)) =
   exec (emit (console_error "HEIC dosyası dönüştürülemedi:"
                 "HEIC dönüştürücü yüklenemedi")) w) /\
  (heic2any w = Loaded ->
   run w [Drop (file :: others);
          Settle (length (pending w)) (Rejected error)] =
   exec (emit (call_heic2any file "image/jpeg" (8 # 10)) ;;
         emit (console_error "HEIC dönüştürme hatası:" error) ;;
         emit (console_error "HEIC dosyası dönüştürülemedi:" error)) w).
Proof.
  intros Hclient Hheic.
  destruct w as [s libC libH urls tasks tr]. cbn [ui heic2any pending] in *.
  split.
  - intros ->. unfold step. cbn [ui]. rewrite Hclient.
    unfold onDrop. rewrite Hheic. reflexivity.
  - intros ->. unfold run. cbn [fold_left].
    assert (Hdrop :
      step (mkWorld s libC Loaded urls tasks tr) (Drop (file :: others)) =
      mkWorld s libC Loaded urls (tasks ++ [AwaitHeic2any file])
        (tr ++ [call_heic2any file "image/jpeg" (8 # 10)])).
    { unfold step. cbn [ui]. rewrite Hclient.
      unfold onDrop. rewrite Hheic. reflexivity. }
    rewrite Hdrop. erewrite variant_settle_last by reflexivity. reflexivity.
Qed.

Lemma unconverted_heic_leaves_state_witness :
  let w := run ready [Drop [IMG_0042]; Settle 0 (Rejected "corrupt")] in
  ui w = ui ready /\ length (trace w) = 3%nat.
Proof.
  destruct (unconverted_heic_leaves_state ready IMG_0042 [] "corrupt"
              eq_refl eq_refl) as (_ & H).
  specialize (H eq_refl). vm_compute in H. vm_compute.
  split; [exact (f_equal ui H) | exact (f_equal (fun w => length (trace w)) H)].
Defined.

(** ** One conversion at a time *)

Lemma variant_take_split (tasks : list Task) (i : nat) (t : Task) :
  nth_error tasks i = Some t ->
  exists before after,
    tasks = (before ++ t :: after)%list /\
    (firstn i tasks ++ skipn (S i) tasks)%list = (before ++ after)%list.
Proof.
  intros Hnth. apply nth_error_split in Hnth.
  destruct Hnth as (before & after & -> & <-).
  exists before, after. split; [reflexivity|].
  clear. induction before as [|x before IH]; simpl; [reflexivity|].
  simpl in IH. now rewrite IH.
Qed.

Lemma conversions_app (l1 l2 : list Task) :
  conversions (l1 ++ l2) = (conversions l1 + conversions l2)%nat.
Proof. unfold conversions. now rewrite filter_app, length_app. Qed.

Lemma conversions_after_take (tasks : list Task) (i : nat) (t : Task) :
  nth_error tasks i = Some t ->
  conversions tasks =
  (conversions (firstn i tasks ++ skipn (S i) tasks)
   + (if isConversion t then 1 else 0))%nat.
Proof.
  intros Hnth.
  destruct (variant_take_split tasks i t Hnth) as (before & after & -> & ->).
  rewrite !conversions_app.
  change (t :: after) with ([t] ++ after)%list. rewrite conversions_app.
  unfold conversions at 2. simpl. destruct (isConversion t); simpl; lia.
Qed.

Lemma conversions_snoc (tasks : list Task) (t : Task) :
  conversions (tasks ++ [t]) =
  (conversions tasks + (if isConversion t then 1 else 0))%nat.
Proof.
  rewrite conversions_app. unfold conversions at 2. simpl.
  destruct (isConversion t); reflexivity.
Qed.

Lemma step_oneAtATime (w : World) (e : Event) :
  oneAtATime w -> oneAtATime (step w e).
Proof.
  intros [Hmost Hflag].
  destruct w as [[q tf conv prev res name sel client] libC libH urls tasks tr].
  unfold oneAtATime in *. cbn [ui isConverting pending] in *.
  destruct e; unfold step; cbn [ui isClient convertedBlob pending].
  - split; assumption.
  - split; assumption.
  - split; assumption.
  - destruct client; [|split; assumption].
    destruct acceptedFiles as [|file others]; [split; assumption|].
    unfold exec, onDrop.
    destruct (looksHeic file); cbn -[conversions]; [|split; assumption].
    destruct libH; cbn -[conversions]; [split; assumption|].
    rewrite conversions_snoc. cbn -[conversions]. rewrite Nat.add_0_r.
    split; assumption.
  - destruct client; split; assumption.
  - destruct client; split; assumption.
  - unfold convertDisabled. cbn -[conversions].
    destruct sel as [file|]; [|rewrite andb_false_r; split; assumption].
    destruct client, conv; cbn -[conversions]; try (split; assumption).
    destruct libC; cbn -[conversions]; [split; assumption|].
    rewrite conversions_snoc. cbn -[conversions].
    assert (conversions tasks = O).
    { destruct (conversions tasks) as [|[|n]]; [reflexivity | | lia].
      discriminate (Hflag eq_refl). }
    split; [lia | reflexivity].
  - destruct (client && isSome res); [|split; assumption].
    unfold exec, handleDownload, bind, render. cbn -[conversions].
    destruct res; split; assumption.
  - destruct (nth_error tasks i) as [t|] eqn:Htask; [|split; assumption].
    pose proof (conversions_after_take tasks i t Htask) as Hcount.
    destruct t, o; try (split; assumption); try (destruct blob);
      cbn -[firstn skipn conversions] in *;
      try rewrite conversions_snoc; cbn -[firstn skipn conversions];
      split; try lia; try (intros ?; apply Hflag; lia); intros; lia.
Qed.

Lemma variant_reachable_invariant (P : World -> Prop) :
  P initialWorld ->
  (forall w e, P w -> P (step w e)) ->
  forall w, reachable w -> P w.
Proof.
  intros Hinit Hstep w [events ->]. revert Hinit.
  generalize initialWorld. induction events as [|e events IH]; intros w Hw.
  - exact Hw.
  - simpl. apply IH, Hstep, Hw.
Qed.

Lemma variant_reachable_run (w : World) (events : list Event) :
  reachable w -> reachable (run w events).
Proof.
  intros [before ->]. exists (before ++ events)%list.
  unfold run. now rewrite fold_left_app.
Qed.

(** In this variant conversions do not overlap: in every reachable world
    at most one conversion is under way, and while one is, from the call of
    the re-compression library to the callback of [toBlob], the flag is up
    and a click on the convert button does nothing. *)
Theorem conversions_do_not_overlap (w : World) :
  reachable w ->
  (conversions (pending w) <= 1)%nat /\
  (forall t, In t (pending w) -> isConversion t = true ->
             isConverting (ui w) = true /\ step w ClickConvert = w).
Proof.
  intros Hreach.
  assert (Hone : oneAtATime w).
  { revert w Hreach.
    apply variant_reachable_invariant; [|exact step_oneAtATime].
    unfold oneAtATime, conversions. simpl. split; [lia | discriminate]. }
  destruct Hone as [Hmost Hflag]. split; [exact Hmost|].
  intros t Hin Hkind.
  assert (Hup : isConverting (ui w) = true).
  { apply Hflag. apply in_split in Hin. destruct Hin as (l1 & l2 & Heq).
    rewrite Heq in *. rewrite conversions_app in *.
    change (t :: l2) with ([t] ++ l2)%list in *.
    rewrite conversions_app in *. unfold conversions at 2 in Hmost.
    unfold conversions at 2. simpl in *. rewrite Hkind in *. simpl in *. lia. }
  split; [exact Hup|].
  unfold step, convertDisabled. rewrite Hup.
  destruct (isClient (ui w)), (selectedFile (ui w)); reflexivity.
Qed.

Lemma decoding_reachable : reachable decoding.
Proof. apply variant_reachable_run. eexists. reflexivity. Qed.

Lemma conversions_do_not_overlap_witness :
  isConverting (ui decoding) = true /\ step decoding ClickConvert = decoding.
Proof.
  apply (proj2 (conversions_do_not_overlap decoding decoding_reachable)
           (AwaitImageLoad createElement_canvas 1%nat "image/jpeg" 80)).
  - vm_compute. left. reflexivity.
  - reflexivity.
Defined.

(** ** A failed image load *)

Lemma step_wedged (w : World) (e : Event) : wedged w -> wedged (step w e).
Proof.
  intros [Hup Hnone].
  destruct w as [[q tf conv prev res name sel client] libC libH urls tasks tr].
  unfold wedged in *. cbn [ui isConverting pending] in *. subst conv.
  destruct e; unfold step; cbn [ui isClient convertedBlob pending].
  - split; [reflexivity | assumption].
  - split; [reflexivity | assumption].
  - split; [reflexivity | assumption].
  - destruct client; [|split; [reflexivity | assumption]].
    destruct acceptedFiles as [|file others];
      [split; [reflexivity | assumption]|].
    unfold exec, onDrop. destruct (looksHeic file); cbn -[conversions];
      [|split; [reflexivity | assumption]].
    destruct libH; cbn -[conversions]; [split; [reflexivity | assumption]|].
    rewrite conversions_snoc. cbn -[conversions].
    split; [reflexivity | lia].
  - destruct client; split; try reflexivity; assumption.
  - destruct client; split; try reflexivity; assumption.
  - unfold convertDisabled. cbn.
    destruct sel; rewrite ?andb_false_r; split; try reflexivity; assumption.
  - destruct (client && isSome res); [|split; [reflexivity | assumption]].
    unfold exec, handleDownload, bind, render. cbn -[conversions].
    destruct res; split; try reflexivity; assumption.
  - destruct (nth_error tasks i) as [t|] eqn:Htask;
      [|split; [reflexivity | assumption]].
    pose proof (conversions_after_take tasks i t Htask) as Hcount.
    destruct t; cbn [isConversion] in Hcount; try lia.
    destruct o; cbn -[firstn skipn conversions];
      split; try reflexivity; try assumption; lia.
Qed.

(** An image that fails to load leaves this variant unable to convert:
    [img] has no [onerror] and nothing else resets the flag, so whatever
    happens afterwards the flag stays up and a click on the convert button
    does nothing. *)
Theorem failed_image_load_disables_convert
    (w : World) (i : nat) (canvas : Canvas) (src : Url) (format : string)
    (q : Z) (events : list Event) :
  reachable w ->
  nth_error (pending w) i = Some (AwaitImageLoad canvas src format q) ->
  let w' := run (step w (Settle i ImageFailed)) events in
  isConverting (ui w') = true /\ step w' ClickConvert = w'.
Proof.
  intros Hreach Htask w'.
  assert (Hone : oneAtATime w).
  { revert w Hreach Htask w'.
    intros w Hreach _. revert w Hreach.
    apply variant_reachable_invariant; [|exact step_oneAtATime].
    unfold oneAtATime, conversions. simpl. split; [lia | discriminate]. }
  destruct Hone as [Hmost Hflag].
  pose proof (conversions_after_take (pending w) i _ Htask) as Hcount.
  cbn [isConversion] in Hcount.
  assert (Hwedged : wedged (step w (Settle i ImageFailed))).
  { unfold step. rewrite Htask. cbn -[firstn skipn conversions].
    unfold wedged. cbn [ui pending].
    split; [apply Hflag; lia | lia]. }
  assert (Hstill : wedged w').
  { subst w'. clear - Hwedged. revert Hwedged.
    generalize (step w (Settle i ImageFailed)).
    induction events as [|e events IH]; intros w0 Hw0; [exact Hw0|].
    simpl. apply IH, step_wedged, Hw0. }
  destruct Hstill as [Hup _]. split; [exact Hup|].
  unfold step, convertDisabled. rewrite Hup.
  destruct (isClient (ui w')), (selectedFile (ui w')); reflexivity.
Qed.

Lemma failed_image_load_disables_convert_witness :
  let w' := run (step decoding (Settle 0 ImageFailed))
              [Drop [photo_png]; ClickConvert] in
  isConverting (ui w') = true /\ step w' ClickConvert = w'.
Proof.
  exact (failed_image_load_disables_convert decoding 0
           createElement_canvas 1%nat "image/jpeg" 80
           [Drop [photo_png]; ClickConvert] decoding_reachable eq_refl).
Defined.

(** ** Converting *)

(** Without a file or before the re-compression library is loaded,
    [handleConvert] of this variant returns at once and changes nothing,
    preview and result included; with both it clears preview and result,
    raises the flag and calls the library with the 1 MB and 1920 pixel
    caps. *)
Theorem convert_needs_file_and_library (w : World) :
  (selectedFile (ui w) = None \/ imageCompression w = Null ->
   exec handleConvert w = w) /\
  (forall file,
     selectedFile (ui w) = Some file -> imageCompression w = Loaded ->
     let w' := exec handleConvert w in
     isConverting (ui w') = true /\
     previewUrl (ui w') = None /\
     convertedBlob (ui w') = None /\
     trace w' =
       (trace w ++ [call_imageCompression file
                      (mkCompressionOptions 1 1920 true)])%list /\
     pending w' =
       (pending w ++ [AwaitImageCompression file (targetFormat (ui w))
                        (quality (ui w))])%list).
Proof.
  destruct w as [[q tf conv prev res name sel client] libC libH urls tasks tr].
  cbn [ui imageCompression selectedFile] in *. split.
  - intros [->| ->]; [reflexivity|]. destruct sel; reflexivity.
  - intros file -> ->. repeat split.
Qed.

Lemma convert_needs_file_and_library_witness :
  let w := run initialWorld [Mounted; Drop [photo_png]] in
  previewUrl (ui w) = Some 0%nat /\ exec handleConvert w = w.
Proof.
  intros w. split; [reflexivity|].
  exact (proj1 (convert_needs_file_and_library w) (or_intror eq_refl)).
Defined.

(** ** What is selected *)

Lemma step_selectedIsPlain (w : World) (e : Event) :
  selectedIsPlain w -> selectedIsPlain (step w e).
Proof.
  intros Hw.
  destruct w as [[q tf conv prev res name sel client] libC libH urls tasks tr].
  unfold selectedIsPlain in *. cbn [ui selectedFile originalFileName] in Hw.
  destruct e; unfold step; cbn [ui isClient convertedBlob pending].
  - exact Hw.
  - exact Hw.
  - exact Hw.
  - destruct client; [|exact Hw].
    destruct acceptedFiles as [|file others]; [exact Hw|].
    unfold exec, onDrop. destruct (looksHeic file) eqn:Hlooks; cbn.
    + destruct libH; exact Hw.
    + split; [exact Hlooks | reflexivity].
  - destruct client; exact Hw.
  - destruct client; exact Hw.
  - unfold convertDisabled. cbn.
    destruct sel as [file|]; [|rewrite andb_false_r; exact Hw].
    destruct client, conv; cbn; try exact Hw.
    destruct libC; exact Hw.
  - destruct (client && isSome res); [|exact Hw].
    unfold exec, handleDownload, bind, render. cbn.
    destruct res; exact Hw.
  - destruct (nth_error tasks i) as [t|]; [|exact Hw].
    destruct t, o; try exact Hw; try (destruct blob); cbn; try exact Hw.
    split; [|reflexivity].
    unfold looksHeic. cbn. apply replace_heic_not_heic.
Qed.

(** In every reachable world of this variant the selected file does not
    look like a HEIC, neither by its type nor by its name in any case, and
    the name kept for the download is the selected file's name: a HEIC only
    ever arrives converted. *)
Theorem selected_file_is_never_heic (w : World) (file : File) :
  reachable w ->
  selectedFile (ui w) = Some file ->
  looksHeic file = false /\ originalFileName (ui w) = file_name file.
Proof.
  intros Hreach Hfile.
  assert (Hplain : selectedIsPlain w).
  { revert w Hreach Hfile. intros w Hreach _. revert w Hreach.
    apply variant_reachable_invariant; [reflexivity|].
    exact step_selectedIsPlain. }
  unfold selectedIsPlain in Hplain. rewrite Hfile in Hplain. exact Hplain.
Qed.

Lemma selected_file_is_never_heic_witness :
  let w := run ready [Drop [IMG_0042];
                      Settle 0 (ResolvedConverted (OneBlob jpeg))] in
  originalFileName (ui w) = "IMG_0042.jpg".
Proof.
  intros w.
  assert (Hreach : reachable w).
  { apply variant_reachable_run. eexists. reflexivity. }
  exact (proj2 (selected_file_is_never_heic w
                  (mkFile "IMG_0042.jpg"
                     (mkBlob "image/jpeg" (blob_bytes jpeg)))
                  Hreach eq_refl)).
Defined.

End Heic2anyFacts.
